(** * Query analyzer: feature extraction, parse orchestration, suggestions

    A shallow embedding of
      - [src/query_parser/feature_extractor.py]  (class FeatureExtractor),
      - [src/query_parser/furniture_parser.py]   (class FurnitureParser),
      - [src/query_suggestion/*.py], [src/config/database.py], [src/config/config.py]
    and the properties of the natural-language specification that concern them.

    Conventions of the embedding.
      - A Python [str] is a [string]; the text is taken to be ASCII, so that
        [str.lower], [str.split] and [len] act byte-wise.
      - A Python [dict] used as a lookup table is a [gmap]; a [set] is a [gset];
        a [dict] that is iterated is the list of its items in insertion order.
      - A call that may raise is a computation in the monad [Result]; the
        statement [x ← c; k] aborts with the exception of [c], as an
        unhandled Python exception does.
      - The modules [config.constants] and [utils.helpers] and the Python
        regular-expression engine are not part of the sources: the tables
        and functions taken from them are the fields of [Env]. *)

From Stdlib Require Import Ascii String QArith.
From stdpp Require Import gmap strings list fin_maps sorting.

(** ** Python strings *)

Module Str.

Definition is_upper (c : ascii) : bool :=
  let n := nat_of_ascii c in (65 <=? n) && (n <=? 90).

Definition is_lower (c : ascii) : bool :=
  let n := nat_of_ascii c in (97 <=? n) && (n <=? 122).

Definition is_alpha (c : ascii) : bool := is_upper c || is_lower c.

Definition lower_char (c : ascii) : ascii :=
  if is_upper c then ascii_of_nat (nat_of_ascii c + 32) else c.

Definition upper_char (c : ascii) : ascii :=
  if is_lower c then ascii_of_nat (nat_of_ascii c - 32) else c.

(** [s.lower()] *)
Fixpoint lower (s : string) : string :=
  match s with
  | "" => ""
  | String c s' => String (lower_char c) (lower s')
  end.

(** [s.title()]: a letter that follows a letter is lowercased, any other
    letter is uppercased. *)
Fixpoint title_from (after_letter : bool) (s : string) : string :=
  match s with
  | "" => ""
  | String c s' =>
      String (if after_letter then lower_char c else upper_char c)
             (title_from (is_alpha c) s')
  end.
Definition title (s : string) : string := title_from false s.

(** The ASCII characters for which [str.isspace] holds: TAB, LF, VT, FF,
    CR, the separators FS, GS, RS, US, and the space. *)
Definition is_space (c : ascii) : bool :=
  let n := nat_of_ascii c in
  (9 <=? n) && (n <=? 13) || (28 <=? n) && (n <=? 32).

(** [s.startswith(p)] with the arguments in the order of [p in s]. *)
Definition startswith (p s : string) : bool := String.prefix p s.

(** [needle in hay] *)
Fixpoint contains (needle hay : string) : bool :=
  String.prefix needle hay ||
  match hay with
  | "" => false
  | String _ hay' => contains needle hay'
  end.

(** Text made of whitespace only, as in a text that [strip] empties. *)
Fixpoint blank (s : string) : bool :=
  match s with
  | "" => true
  | String c s' => is_space c && blank s'
  end.

(** [s.split()]: the maximal runs of non-whitespace characters. [cur] is
    the run being read. *)
Fixpoint split_from (cur : string) (s : string) : list string :=
  match s with
  | "" => if decide (cur = "") then [] else [cur]
  | String c s' =>
      if is_space c
      then (if decide (cur = "") then [] else [cur]) ++ split_from "" s'
      else split_from (cur +:+ String c "") s'
  end.
Definition split (s : string) : list string := split_from "" s.

(** [sep.join(l)] *)
Definition join (sep : string) (l : list string) : string :=
  String.concat sep l.

(** [l[a:b]] for non-negative [a] and [b]. *)
Definition slice {A} (a b : nat) (l : list A) : list A :=
  take (b - a) (drop a l).

(** [s.replace(old, new)]: the occurrences of [old] are replaced from left
    to right, without overlap; [skip] counts the characters of the
    occurrence being replaced that are still to be dropped. *)
Fixpoint replace_from (old new : string) (skip : nat) (s : string) : string :=
  match s with
  | "" => ""
  | String c s' =>
      match skip with
      | S k => replace_from old new k s'
      | O =>
          if String.prefix old s
          then new +:+ replace_from old new (String.length old - 1) s'
          else String c (replace_from old new 0 s')
      end
  end.

(** With an empty [old], Python puts [new] before every character and at
    the end. *)
Fixpoint intersperse (new : string) (s : string) : string :=
  match s with
  | "" => new
  | String c s' => new +:+ String c (intersperse new s')
  end.

Definition replace (old new s : string) : string :=
  if decide (old = "") then intersperse new s else replace_from old new 0 s.

End Str.

(** ** Exceptions *)

Inductive exn : Type :=
  | ValueError (* unpacking a sequence of the wrong length *)
  | TypeError  (* a call that misses a required argument *)
  | Exception (name : string). (* raised by a collaborator *)

Inductive Result (A : Type) : Type :=
  | Return (a : A)
  | Raise (e : exn).
Arguments Return {A} a.
Arguments Raise {A} e.

#[global] Instance Result_ret : MRet Result := @Return.
#[global] Instance Result_bind : MBind Result :=
  λ A B f m, match m with Return a => f a | Raise e => Raise e end.

(** [for x in xs: s = body x s], where the body may raise. *)
Fixpoint for_each {S X} (body : X → S → Result S) (xs : list X) (s : S)
  : Result S :=
  match xs with
  | [] => Return s
  | x :: xs' => s' ← body x s; for_each body xs' s'
  end.

(** Python truthiness, as tested by [if x:]. *)
Class Truthy (A : Type) := truthy : A → bool.
#[global] Instance list_truthy {A} : Truthy (list A) :=
  λ l, match l with [] => false | _ => true end.
#[global] Instance string_truthy : Truthy string :=
  λ s, match s with "" => false | _ => true end.

(** ** What the sources import

    [FURNITURE_CATEGORY] maps a main feature to its synonyms,
    [CATEGORY_MAPPINGS] a main feature to its category; the two pattern
    tables pair a regular expression with a feature, respectively a typo
    pattern with its correction. [fuzzyMatch phrase vocabulary threshold] is
    [utils.helpers.fuzzyMatch]; its result is tested for truthiness and
    indexed at 0. [re_search p t] is [re.search(p, t, re.IGNORECASE)] tested
    for truthiness, [re_finditer p t] the [match.group()] of the matches of
    [re.finditer(p, t, re.IGNORECASE)], in order. *)

Record Env : Type := {
  FURNITURE_CATEGORY : list (string * list string);
  CATEGORY_MAPPINGS : gmap string string;
  FEATURE_CONTEXTUAL_PATTERNS : list (string * string);
  FUZZY_PATTERNS : list (string * string);
  fuzzyMatch : string → gset string → Q → Result (list string);
  re_search : string → string → bool;
  re_finditer : string → string → list string;
}.

(** ** feature_extractor.py *)

Module FeatureExtractor.

(** The three attributes set up by [__init__]. *)
Record mappings : Type := {
  all_synonyms : gset string;
  synonym_to_feature : gmap string string;
  feature_to_category : gmap string string;
}.

Definition empty_mappings : mappings :=
  {| all_synonyms := ∅; synonym_to_feature := ∅; feature_to_category := ∅ |}.

Section WithEnv.
Variable E : Env.

(** One iteration of the loop of [_buildFeatureMappings], lines 42-56. *)
Definition build_item (m : mappings) (item : string * list string)
  : mappings :=
  let main_feature := item.1 in
  let category := default "Other" (CATEGORY_MAPPINGS E !! main_feature) in
  {| synonym_to_feature :=
       <[Str.lower main_feature := main_feature]> (synonym_to_feature m);
     all_synonyms := {[Str.lower main_feature]} ∪ all_synonyms m;
     feature_to_category :=
       <[main_feature := category]> (feature_to_category m) |}.

Definition _buildFeatureMappings : mappings :=
  foldl build_item empty_mappings (FURNITURE_CATEGORY E).

(** What the loop of [_buildFeatureMappings] maintains: the keys of
    [synonym_to_feature] are the members of [all_synonyms]; a key is the
    lowercase of its value; a value is a main feature that has a category. *)
Definition well_formed (m : mappings) : Prop :=
  dom (synonym_to_feature m) = all_synonyms m ∧
  ∀ key feature, synonym_to_feature m !! key = Some feature →
    Str.lower feature = key ∧
    feature ∈ (FURNITURE_CATEGORY E).*1 ∧
    is_Some (feature_to_category m !! feature).

(** [self], after [__init__]. *)
Definition self : mappings := _buildFeatureMappings.

(** [feature in FURNITURE_CATEGORY] *)
Definition in_FURNITURE_CATEGORY (feature : string) : bool :=
  bool_decide (feature ∈ (FURNITURE_CATEGORY E).*1).

(** Lines 142-158. *)
Definition furniture_parts : list string :=
  ["sofa"; "chair"; "back"; "seat"; "arm"; "cushion"].

Definition _hasContextualMatch
    (phrase : string) (words : list string) (position : nat) : bool :=
  if Str.contains "leather" phrase then
    let context_window :=
      Str.slice (position - 2) (min (length words) (position + 3)) words in
    existsb
      (λ part, Str.contains part (Str.lower (Str.join " " context_window)))
      furniture_parts
  else true.

Definition fuzzy_threshold (phrase : string) : Q :=
  if Str.contains "detail" phrase || Str.contains "metal" phrase
  then 96 # 100 else 93 # 100.

(** Lines 94-115: the feature matched by a window phrase, [None] when
    there is none. *)
Definition match_phrase (phrase : string) : Result (option string) :=
  match synonym_to_feature self !! phrase with
  | Some feature => Return (Some feature)
  | None =>
      if 6 <? String.length phrase then
        result ← fuzzyMatch E phrase (all_synonyms self)
                              (fuzzy_threshold phrase);
        match result with
        | fuzzy_match :: _ => Return (synonym_to_feature self !! fuzzy_match)
        | [] => Return None
        end
      else Return None
  end.

(** The local variables of [_getCategoriesFromText] that the loops
    update. [accepted] is not a variable of the source: it records the
    windows (start index, size) reported by the log line "Consumed
    indices", in the order of acceptance. *)
Record scan_state : Type := {
  consumed_indices : gset nat;
  detected_features : list string;
  accepted : list (nat * nat);
}.

Definition scan_init : scan_state :=
  {| consumed_indices := ∅; detected_features := []; accepted := [] |}.

Definition window_indices (start_idx window_size : nat) : list nat :=
  seq start_idx window_size.

Definition overlaps_consumed (st : scan_state) (start_idx window_size : nat)
  : bool :=
  existsb (λ idx, bool_decide (idx ∈ consumed_indices st))
          (window_indices start_idx window_size).

Definition accept (st : scan_state) (matched_feature : string)
    (start_idx window_size : nat) : scan_state :=
  {| detected_features := detected_features st ++ [matched_feature];
     consumed_indices :=
       list_to_set (window_indices start_idx window_size)
         ∪ consumed_indices st;
     accepted := accepted st ++ [(start_idx, window_size)] |}.

(** The body of the inner loop, lines 86-134. *)
Definition scan_window (words : list string) (window_size start_idx : nat)
    (st : scan_state) : Result scan_state :=
  if overlaps_consumed st start_idx window_size then Return st
  else
    let phrase :=
      Str.join " " (Str.slice start_idx (start_idx + window_size) words) in
    matched_feature ← match_phrase phrase;
    match matched_feature with
    | Some feature =>
        if truthy feature then
          if _hasContextualMatch phrase words start_idx then
            if bool_decide (feature ∉ detected_features st)
            then Return (accept st feature start_idx window_size)
            else Return st
          else Return st
        else Return st
    | None => Return st
    end.

(** [range(word_count - window_size + 1)], empty when the bound is not
    positive. *)
Definition start_indices (word_count window_size : nat) : list nat :=
  seq 0 (word_count + 1 - window_size).

Definition scan_size (words : list string) (window_size : nat)
    (st : scan_state) : Result scan_state :=
  for_each (scan_window words window_size)
           (start_indices (length words) window_size) st.

(** The outer loop, line 82. *)
Definition scan (words : list string) : Result scan_state :=
  for_each (scan_size words) [4; 3; 2; 1] scan_init.

(** Lines 58-140. *)
Definition _getCategoriesFromText (text : string) : Result (list string) :=
  st ← scan (Str.split text);
  mret (detected_features st).

(** [fuzzyMatch] raises nothing. *)
Definition fuzzyMatch_returns : Prop :=
  ∀ phrase vocabulary threshold,
    ∃ result, fuzzyMatch E phrase vocabulary threshold = Return result.

(** *** What the scan maintains *)

(** The token indices of a window (start index, size). *)
Definition window_set (w : nat * nat) : gset nat :=
  list_to_set (window_indices w.1 w.2).

(** No two windows of the list share a token index. *)
Definition pairwise_disjoint (windows : list (nat * nat)) : Prop :=
  ∀ i j w1 w2, i ≠ j → windows !! i = Some w1 → windows !! j = Some w2 →
    window_set w1 ## window_set w2.

(** The window [w] fits in [words], its phrase matches [feature], and the
    contextual check accepts it. *)
Definition justifies (words : list string) (w : nat * nat) (feature : string)
  : Prop :=
  let phrase := Str.join " " (Str.slice w.1 (w.1 + w.2) words) in
  0 < w.2 ∧ w.1 + w.2 ≤ length words ∧
  match_phrase phrase = Return (Some feature) ∧
  feature ≠ "" ∧
  _hasContextualMatch phrase words w.1 = true.

Definition scan_invariant (words : list string) (st : scan_state) : Prop :=
  NoDup (detected_features st) ∧
  Forall2 (justifies words) (accepted st) (detected_features st) ∧
  consumed_indices st = ⋃ (window_set <$> accepted st) ∧
  pairwise_disjoint (accepted st).

(** Lines 208-213. *)
Definition disambiguate (text_lower : string)
    (detected_features : list string) : list string :=
  if existsb (Str.contains "l shape") detected_features
     && existsb (Str.contains "c shape") detected_features
  then
    if Str.contains "l" text_lower && negb (Str.contains "c" text_lower)
    then filter (λ f, f ≠ "c shape") detected_features
    else if Str.contains "c" text_lower && negb (Str.contains "l" text_lower)
    then filter (λ f, f ≠ "l shape") detected_features
    else detected_features
  else detected_features.

(** Lines 192-215; [text_clean] is computed and not used. *)
Definition extractFeatures (text : string) : Result (list string) :=
  let text_lower := Str.lower text in
  detected_features ← _getCategoriesFromText text_lower;
  mret (disambiguate text_lower detected_features).

(** The loop over the direct patterns in [_extractContextualCategories],
    lines 173-177, which lines 184-188 repeat on the corrected text. *)
Definition apply_patterns (text : string) (detected : list string)
  : list string :=
  foldl
    (λ detected pf,
       if re_search E pf.1 text then
         let feature_lower := Str.lower pf.2 in
         if in_FURNITURE_CATEGORY feature_lower
            && bool_decide (feature_lower ∉ detected)
         then detected ++ [feature_lower] else detected
       else detected)
    detected (FEATURE_CONTEXTUAL_PATTERNS E).

(** Lines 160-190. *)
Definition _extractContextualCategories (text : string) : list string :=
  let detected := apply_patterns text [] in
  foldl
    (λ detected pc,
       foldl
         (λ detected group,
            apply_patterns (Str.replace group pc.2 text) detected)
         detected (re_finditer E pc.1 text))
    detected (FUZZY_PATTERNS E).

End WithEnv.

End FeatureExtractor.

(** ** utils.helpers.fuzzyMatch *)

Module Helpers.

(** Modelled from the spec: the "top fuzzy result" of section 4.1 step 2c,
    for [utils/helpers.py], which is not among the sources. It is the
    vocabulary entry with the highest similarity to [phrase], with its
    score; among equal scores the first one met. *)
Definition best_match (similarity : string → string → Q) (phrase : string)
    (vocabulary : list string) : option (string * Q) :=
  foldl
    (λ best candidate,
       let score := similarity phrase candidate in
       match best with
       | Some (_, best_score) =>
           if Qle_bool score best_score then best else Some (candidate, score)
       | None => Some (candidate, score)
       end)
    None vocabulary.

(** Modelled from the spec: [utils/helpers.py] is not among the sources.
    Section 4.1 step 2c describes [fuzzyMatch] as a similarity-threshold
    lookup against the full vocabulary whose top result counts when it
    clears the threshold, and section 8 reads "clears" as "similarity at
    least the threshold". The similarity measure itself is a parameter. *)
Definition fuzzyMatch_spec (similarity : string → string → Q)
    (phrase : string) (vocabulary : gset string) (threshold : Q)
  : Result (list string) :=
  match best_match similarity phrase (elements vocabulary) with
  | Some (candidate, score) =>
      if Qle_bool threshold score then Return [candidate] else Return []
  | None => Return []
  end.

(** A regular expression without metacharacters matches its own text; with
    [re.IGNORECASE] the comparison ignores case. *)
Definition literal_search (pattern text : string) : bool :=
  Str.contains (Str.lower pattern) (Str.lower text).

(** The first [n] characters of [s]. *)
Fixpoint string_take (n : nat) (s : string) : string :=
  match n, s with
  | S k, String c s' => String c (string_take k s')
  | _, _ => ""
  end.

(** The non-overlapping occurrences of a non-empty literal pattern, from
    left to right, as they are spelt in [text]. *)
Fixpoint literal_finditer_from (pattern : string) (skip : nat) (text : string)
  : list string :=
  match text with
  | "" => []
  | String _ text' =>
      match skip with
      | S k => literal_finditer_from pattern k text'
      | O =>
          if String.prefix (Str.lower pattern) (Str.lower text)
          then string_take (String.length pattern) text
                 :: literal_finditer_from pattern (String.length pattern - 1) text'
          else literal_finditer_from pattern 0 text'
      end
  end.

Definition literal_finditer (pattern text : string) : list string :=
  literal_finditer_from pattern 0 text.

End Helpers.

(** ** The contextual acceptance rule, as section 4.1a words it *)

Module Acceptance.
Import FeatureExtractor.

(** Modelled from the spec: section 4.1a accepts a phrase with "leather"
    only if a furniture-part term "appears in that context window", the
    window being one of tokens. A term appears when it is one of the
    tokens of the window, letter case apart. The window is the one of
    [_hasContextualMatch]. *)
Definition term_in_window (words : list string) (position : nat) : bool :=
  let context_window :=
    Str.slice (position - 2) (min (length words) (position + 3)) words in
  existsb (λ part, bool_decide (part ∈ Str.lower <$> context_window))
    furniture_parts.

Definition hasContextualMatch_spec
    (phrase : string) (words : list string) (position : nat) : bool :=
  if Str.contains "leather" phrase then term_in_window words position
  else true.

End Acceptance.

(** ** config.py *)

Module Config.

Record PriceRange : Type := {
  min : option Q;
  max : option Q;
  currency : string;
  confidence : Q;
}.

(** The values that the fields of a record hold at run time; a dataclass
    does not check them against the declared types. *)
Inductive pyval : Type :=
  | PNone
  | PStr (s : string)
  | PFloat (q : Q)
  | PList (l : list string)
  | PPrice (p : PriceRange)
  | PDict (d : list (string * string)).

Record ParserResult : Type := {
  product_type : pyval;
  features : pyval;
  price_range : pyval;
  location : pyval;
  styles : pyval;
  classification_summary : pyval;
  extras : pyval;
  confidence_score : pyval;
  original_query : pyval;
  suggested_query : pyval;
}.

Definition ParserResult_fields : list string :=
  ["product_type"; "features"; "price_range"; "location"; "styles";
   "classification_summary"; "extras"; "confidence_score"; "original_query";
   "suggested_query"].

(** A keyword argument of a call; no field of [ParserResult] has a default
    value, so a missing one is a [TypeError]. *)
Definition required (kwargs : list (string * pyval)) (name : string)
  : Result pyval :=
  match (list_to_map kwargs : gmap string pyval) !! name with
  | Some v => Return v
  | None => Raise TypeError
  end.

(** The call of [ParserResult] with keyword arguments, that is the
    [__init__] that [@dataclass] generates. *)
Definition ParserResult_init (kwargs : list (string * pyval))
  : Result ParserResult :=
  if forallb (λ kv, bool_decide (kv.1 ∈ ParserResult_fields)) kwargs then
    product_type ← required kwargs "product_type";
    features ← required kwargs "features";
    price_range ← required kwargs "price_range";
    location ← required kwargs "location";
    styles ← required kwargs "styles";
    classification_summary ← required kwargs "classification_summary";
    extras ← required kwargs "extras";
    confidence_score ← required kwargs "confidence_score";
    original_query ← required kwargs "original_query";
    suggested_query ← required kwargs "suggested_query";
    Return {| product_type := product_type; features := features;
              price_range := price_range; location := location;
              styles := styles;
              classification_summary := classification_summary;
              extras := extras; confidence_score := confidence_score;
              original_query := original_query;
              suggested_query := suggested_query |}
  else Raise TypeError.

(** An entry [{'id': ..., 'name': ...}] of a database result. *)
Record entry : Type := { id : Z; name : string }.

Record SuggestionResult : Type := {
  brand_name : list entry;
  product_name : list entry;
  suggestion_styles : list string;
}.

(** A dataclass defines neither [__bool__] nor [__len__]: its instances
    are true. *)
#[global] Instance SuggestionResult_truthy : Truthy SuggestionResult :=
  λ _, true.

End Config.

(** ** furniture_parser.py *)

Module FurnitureParser.
Import Config.

(** The extractors that [__init__] creates; their modules are not among the
    sources, any of them may raise. *)
Record Extractors : Type := {
  classifyProductType : string → Result (list string * list Q * string);
  extractClassification : string → Result (list (string * string));
  extractPriceRange : string → Result (option PriceRange);
}.

(** [a, b = l] *)
Definition unpack2 {A} (l : list A) : Result (A * A) :=
  match l with
  | [a; b] => Return (a, b)
  | _ => Raise ValueError
  end.

Section WithExtractors.
Variable E : Env.
Variable X : Extractors.

(** Lines 50-67 up to the call of the constructor: the keyword arguments
    that [structureQuery] passes to [ParserResult]. *)
Definition structureQuery_kwargs (query : string)
  : Result (list (string * pyval)) :=
  '(product_types, product_confidence, corrected_query) ←
    classifyProductType X query;
  returned ← FeatureExtractor.extractFeatures E corrected_query;
  '(features, corrected_query) ← unpack2 returned;
  classifications ← extractClassification X query;
  price_range ← extractPriceRange X query;
  Return
    [("product_type",
      PList (if decide (product_types ≠ ["Unknown"]) then product_types
             else []));
     ("features", PStr features);
     ("price_range", from_option PPrice PNone price_range);
     ("location", PStr "");
     ("confidence_score",
      PFloat (match product_confidence with c :: _ => c | [] => 0%Q end));
     ("classification_summary", PDict classifications);
     ("extras", PList []);
     ("original_query", PStr query);
     ("suggested_query",
      if decide (corrected_query ≠ query) then PStr corrected_query
      else PNone)].

Definition structureQuery (query : string) : Result ParserResult :=
  kwargs ← structureQuery_kwargs query;
  ParserResult_init kwargs.

End WithExtractors.

End FurnitureParser.

(** ** database.py *)

Module DatabaseManager.
Import Config.

(** The database behind psycopg2, with the two table names of
    [config.constants]. [run_query sql parameter] stands for getting a
    connection, [cur.execute(sql, (parameter,))] and [cur.fetchall()]: the
    rows [(id, name)], whose [id] may be NULL, or the exception that one of
    these steps raises. *)
Record Database : Type := {
  BRAND_TABLE : string;
  PRODUCT_TABLE : string;
  run_query : string → string → Result (list (option Z * string));
}.

Definition double_quote : string := String (ascii_of_nat 34) "".

Section WithDatabase.
Variable D : Database.

Definition select_statement (table : string) : string :=
  if decide (table = PRODUCT_TABLE D)
  then "SELECT DISTINCT id, name FROM " +:+ table +:+ " WHERE name ILIKE %s and "
       +:+ double_quote +:+ "isPublished" +:+ double_quote
       +:+ " = True LIMIT 10;"
  else "SELECT DISTINCT id, name FROM " +:+ table
       +:+ " WHERE name ILIKE %s LIMIT 10;".

(** The [try] block returns the entries of the rows whose id is not
    [None]; both [except] clauses return the empty list. *)
Definition _fetchData (table text : string) : list entry :=
  let search_term := text +:+ "%" in
  match run_query D (select_statement table) search_term with
  | Return rows =>
      omap (λ row, match row.1 with
                   | Some i => Some {| id := i; name := row.2 |}
                   | None => None
                   end) rows
  | Raise _ => []
  end.

Definition fetchBrandNames (text : string) : list entry :=
  _fetchData (BRAND_TABLE D) text.

Definition fetchProductNames (text : string) : list entry :=
  _fetchData (PRODUCT_TABLE D) text.

End WithDatabase.

End DatabaseManager.

(** ** query_suggestion *)

Module QuerySuggestion.
Import Config.

(** What [suggestQueryResults] returns: the mapping of the three lists, or
    the constant [False]. *)
Inductive suggestion_value : Type :=
  | Entries (l : list entry)
  | Names (l : list string).

Inductive response : Type :=
  | Mapping (items : list (string * suggestion_value))
  | PyFalse.

(** [x or []] *)
Definition or_empty {A} (x : list A) : list A := if truthy x then x else [].

Section WithDatabase.
Variable D : DatabaseManager.Database.
Variable FURNITURE_STYLES : list (string * list string).

(** style_extractor.py. A Python set is iterated in an order that the
    language leaves open; [elements] fixes one. *)
Definition all_style_terms : gset string :=
  foldl (λ terms item, {[Str.lower item.1]} ∪ terms) ∅ FURNITURE_STYLES.

Definition _extractFurnitureStyles (text : string) : list string :=
  let text_lower := Str.lower text in
  take 10
    (Str.title <$>
       filter (λ style, Str.startswith text_lower (Str.lower style) = true)
              (elements all_style_terms)).

Definition extractStyles (text : string) : list string :=
  _extractFurnitureStyles text.

(** product_brand_extractor.py: the dictionary with the keys
    ['product_name'] and ['brand_name'], as a pair. *)
Definition extractProductBrandName (text : string)
  : list entry * list entry :=
  let product_names := DatabaseManager.fetchProductNames D text in
  let brand_names := DatabaseManager.fetchBrandNames D text in
  (product_names, brand_names).

(** suggestion.py *)
Definition suggestsQuery (query : string) : SuggestionResult :=
  let data := extractProductBrandName query in
  let product_name := data.1 in
  let brand_name := data.2 in
  let styles := extractStyles query in
  {| brand_name := or_empty brand_name;
     product_name := or_empty product_name;
     suggestion_styles := styles |}.

Definition suggestQueryResults (query : string) : response :=
  let result := suggestsQuery query in
  if truthy result then
    Mapping [("product_name", Entries (Config.product_name result));
             ("brand_name", Entries (Config.brand_name result));
             ("styles", Names (suggestion_styles result))]
  else PyFalse.

End WithDatabase.

End QuerySuggestion.

(** ** Concrete tables

    A small lexicon and a table-driven similarity, for running the
    definitions. *)

Module Demo.

Definition lexicon : list (string * list string) :=
  [("leather", ["leatherette"]); ("l shape", ["l-shaped"]);
   ("c shape", ["c-shaped"]); ("metal legs", []); ("tufted", ["buttoned"])].

Definition categories : gmap string string :=
  list_to_map [("leather", "Material"); ("l shape", "Shape");
               ("c shape", "Shape"); ("metal legs", "Legs")].

(** One similarity score per pair of phrase and vocabulary entry, 0 for
    the pairs that are not listed. *)
Definition similarity (table : list (string * string * Q))
    (phrase candidate : string) : Q :=
  from_option (λ found, found.2.2) 0%Q
    (list_find (λ row, row.1 = (phrase, candidate)) table).

Definition scores : list (string * string * Q) :=
  [("metal lags", "metal legs", 94 # 100);
   ("tuffted", "tufted", 94 # 100);
   ("x shapes", "c shape", 95 # 100)].

Definition env : Env :=
  {| FURNITURE_CATEGORY := lexicon;
     CATEGORY_MAPPINGS := categories;
     FEATURE_CONTEXTUAL_PATTERNS := [("button", "tufted")];
     FUZZY_PATTERNS := [("buton", "button")];
     fuzzyMatch := Helpers.fuzzyMatch_spec (similarity scores);
     re_search := Helpers.literal_search;
     re_finditer := Helpers.literal_finditer |}.

(** The same tables with a [fuzzyMatch] that fails. *)
Definition env_failing_fuzzy : Env :=
  {| FURNITURE_CATEGORY := lexicon;
     CATEGORY_MAPPINGS := categories;
     FEATURE_CONTEXTUAL_PATTERNS := [];
     FUZZY_PATTERNS := [];
     fuzzyMatch := λ _ _ _, Raise (Exception "fuzzyMatch");
     re_search := Helpers.literal_search;
     re_finditer := Helpers.literal_finditer |}.

(** A lexicon with two main features that differ by letter case only. *)
Definition env_mixed_case : Env :=
  {| FURNITURE_CATEGORY := [("leather", []); ("Leather", ["hide"])];
     CATEGORY_MAPPINGS := categories;
     FEATURE_CONTEXTUAL_PATTERNS := [];
     FUZZY_PATTERNS := [];
     fuzzyMatch := Helpers.fuzzyMatch_spec (similarity scores);
     re_search := Helpers.literal_search;
     re_finditer := Helpers.literal_finditer |}.

(** Extractors that succeed: the classifier knows sofas and corrects
    nothing. *)
Definition extractors : FurnitureParser.Extractors :=
  {| FurnitureParser.classifyProductType :=
       λ query, Return (if Str.contains "sofa" query then ["Sofa"]
                        else ["Unknown"],
                        [9 # 10], query);
     FurnitureParser.extractClassification := λ _, Return [];
     FurnitureParser.extractPriceRange := λ _, Return None |}.

(** Extractors whose classifier fails. *)
Definition extractors_failing : FurnitureParser.Extractors :=
  {| FurnitureParser.classifyProductType :=
       λ _, Raise (Exception "classifier");
     FurnitureParser.extractClassification := λ _, Return [];
     FurnitureParser.extractPriceRange := λ _, Return None |}.

(** A database that knows one product for the prefix "mod", next to a row
    without identifier, and fails on any other request. *)
Definition database : DatabaseManager.Database :=
  {| DatabaseManager.BRAND_TABLE := "Brand";
     DatabaseManager.PRODUCT_TABLE := "Product";
     DatabaseManager.run_query :=
       λ sql parameter,
         if decide (parameter = "mod%")
         then Return [(Some 7%Z, "Modena sofa"); (None, "Modular desk")]
         else Raise (Exception "OperationalError") |}.

Definition furniture_styles : list (string * list string) :=
  [("Modern", ["contemporary"]); ("Mid-Century Modern", []);
   ("Rustic", ["farmhouse"])].

End Demo.

(** ** The order of acceptance *)

Module Windows.

(** The window [w1] is tried before [w2]: it is larger, or as large and
    further left. *)
Definition window_before (w1 w2 : nat * nat) : Prop :=
  w2.2 < w1.2 ∨ (w1.2 = w2.2 ∧ w1.1 < w2.1).

(** Every window of the list is tried before the window of size
    [window_size] that starts at [start_idx]. *)
Definition all_before (windows : list (nat * nat))
    (window_size start_idx : nat) : Prop :=
  ∀ w, w ∈ windows → window_before w (start_idx, window_size).

(** The windows are listed in the order in which the scan tries them. *)
Definition in_scan_order (windows : list (nat * nat)) : Prop :=
  ∀ i j w1 w2, i < j → windows !! i = Some w1 → windows !! j = Some w2 →
    window_before w1 w2.

End Windows.

(** ** The texts of the pattern pass *)

Module Patterns.

(** The texts on which [_extractContextualCategories] tries the direct
    patterns: the text itself, then, for every fuzzy pattern and every
    match of it, the text with the matched typo replaced by the
    correction. *)
Definition searched_texts (E : Env) (text : string) : list string :=
  text ::
  (pc ← FUZZY_PATTERNS E;
   (λ group, Str.replace group pc.2 text) <$> re_finditer E pc.1 text).

End Patterns.

(** ** furniture_parser.py and main.py: the callers *)

Module Main.
Import Config FurnitureParser QuerySuggestion.

(** The dictionary that [analyzeQueryText] builds from the result, lines
    83-93 of furniture_parser.py. *)
Definition result_mapping (result : ParserResult) : list (string * pyval) :=
  [("product_type", product_type result);
   ("features", features result);
   ("price_range", price_range result);
   ("location", location result);
   ("classification_summary", classification_summary result);
   ("extras", extras result);
   ("confidence_score", confidence_score result);
   ("original_query", original_query result);
   ("suggested_query", suggested_query result)].

(** What a view of main.py answers: the JSON document and the status. *)
Inductive document : Type :=
  | Failure (error : string)
      (* the object with "success": False and "error" *)
  | Analysis (result : list (string * pyval))
      (* the object with "success": True and "result" *)
  | Suggestions (items : list (string * suggestion_value)).
      (* the mapping of suggestQueryResults, returned as it is *)

Record reply : Type := { content : document; status : nat }.

(** [try: block except Exception as e: handler] *)
Definition try_except {A} (block : Result A) (handler : exn → A) : A :=
  match block with
  | Return a => a
  | Raise e => handler e
  end.

#[global] Instance query_truthy : Truthy (option string) :=
  λ query, match query with None => false | Some q => truthy q end.

#[global] Instance response_truthy : Truthy response :=
  λ results, match results with Mapping items => truthy items
                              | PyFalse => false end.

Section Views.
Variable E : Env.
Variable X : Extractors.
Variable D : DatabaseManager.Database.
Variable FURNITURE_STYLES : list (string * list string).

(** [str(e)], the time between the two readings of the clock in
    [analyzeQuery], and the formatting of a number with two decimals. *)
Variable str : exn → string.
Variable duration : Q.
Variable two_decimals : Q → string.

Definition analyzeQueryText (query : string)
  : Result (list (string * pyval)) :=
  result ← structureQuery E X query;
  Return (result_mapping result).

Definition server_error (e : exn) : reply :=
  {| content := Failure ("Server error: " +:+ str e); status := 500 |}.

(** main.py, lines 38-70. [query] is [request.json.get('query')] for a
    request whose body is a JSON object: a string, or [None] when the key
    is absent or null. *)
Definition analyzeQuery (query : option string) : reply :=
  try_except
    (match query with
     | Some q =>
         if negb (truthy query)
         then Return {| content := Failure "Query is required";
                        status := 400 |}
         else
           result ← analyzeQueryText q;
           let processing_time :=
             if negb (Qle_bool 1 duration) (* duration < 1 *)
             then two_decimals duration +:+ " ms"
             else two_decimals duration +:+ " sec" in
           let result := result ++ [("processing_time", PStr processing_time)] in
           if negb (truthy result)
           then Return {| content := Failure "Invalid input type";
                          status := 400 |}
           else Return {| content := Analysis result; status := 200 |}
     | None => Return {| content := Failure "Query is required";
                         status := 400 |}
     end)
    server_error.


End Views.

End Main.

(** ** Concrete surroundings of the views *)

Module DemoViews.

(** A database that is down. *)
Definition database_down : DatabaseManager.Database :=
  {| DatabaseManager.BRAND_TABLE := "Brand";
     DatabaseManager.PRODUCT_TABLE := "Product";
     DatabaseManager.run_query :=
       λ _ _, Raise (Exception "OperationalError") |}.

(** The name of the exception for its text. *)
Definition describe (e : exn) : string :=
  match e with
  | ValueError => "ValueError"
  | TypeError => "TypeError"
  | Exception name => name
  end.

(** A clock that shows three hundredths of a second, already formatted. *)
Definition elapsed : Q := 3 # 100.
Definition formatted (duration : Q) : string := "0.03".

End DemoViews.

(** * Properties *)

(** ** The exception monad and the loops *)

Lemma bind_Return {A B} (m : Result A) (k : A → Result B) (b : B) :
  m ≫= k = Return b ↔ ∃ a, m = Return a ∧ k a = Return b.
Proof.
  destruct m as [a|e]; simpl; split.
  - eauto.
  - by intros (a' & [= <-] & ?).
  - done.
  - by intros (a' & ? & _).
Qed.

(** A property of the loop state that every iteration preserves holds when
    the loop ends. *)
Lemma for_each_invariant {S X} (P : S → Prop) (body : X → S → Result S)
    (xs : list X) (s s' : S) :
  (∀ x s1 s2, x ∈ xs → P s1 → body x s1 = Return s2 → P s2) →
  P s → for_each body xs s = Return s' → P s'.
Proof.
  revert s. induction xs as [|x xs IH]; intros s Hbody Hs; simpl.
  - by intros [= <-].
  - intros (s1 & H1 & Hrest)%bind_Return.
    apply (IH s1); [|by eapply Hbody; [left|..]|done].
    intros y t1 t2 Hy. apply Hbody. by right.
Qed.

Lemma for_each_cons_Return {S X} (body : X → S → Result S) x xs (s s' : S) :
  for_each body (x :: xs) s = Return s' →
  ∃ s1, body x s = Return s1 ∧ for_each body xs s1 = Return s'.
Proof. simpl. by intros ?%bind_Return. Qed.

(** A loop whose iterations all return, returns. *)
Lemma for_each_returns {S X} (body : X → S → Result S) (xs : list X) (s : S) :
  (∀ x s1, ∃ s2, body x s1 = Return s2) → ∃ s', for_each body xs s = Return s'.
Proof.
  intros Hbody. revert s. induction xs as [|x xs IH]; intros s; simpl.
  - eauto.
  - destruct (Hbody x s) as [s1 ->]. simpl. apply IH.
Qed.

(** ** Strings *)

Module StrFacts.
Import Str.

Lemma lower_char_space c : is_space (lower_char c) = is_space c.
Proof. by destruct c as [[] [] [] [] [] [] [] []]. Qed.

Lemma blank_lower s : blank (lower s) = blank s.
Proof.
  induction s as [|c s IH]; simpl; [done|]. by rewrite lower_char_space, IH.
Qed.

Lemma split_blank s : blank s = true → split s = [].
Proof.
  unfold split. induction s as [|c s IH]; simpl; [done|].
  intros [Hc Hs]%andb_true_iff. rewrite Hc. simpl. by apply IH.
Qed.

Lemma prefix_refl s : String.prefix s s = true.
Proof.
  induction s as [|c s IH]; simpl; [done|].
  destruct (ascii_dec c c); [exact IH | done].
Qed.

Lemma contains_refl s : contains s s = true.
Proof. destruct s; [done|]. cbn [contains]. by rewrite prefix_refl. Qed.

Lemma prefix_empty s : String.prefix "" s = true.
Proof. by destruct s. Qed.

Lemma contains_empty s : contains "" s = true.
Proof. destruct s; cbn [contains]; by rewrite prefix_empty. Qed.

Lemma contains_cons p c s :
  contains p (String c s) = String.prefix p (String c s) || contains p s.
Proof. done. Qed.

Lemma no_space_cons a p :
  contains " " (String a p) = false → a ≠ " "%char ∧ contains " " p = false.
Proof.
  rewrite contains_cons. intros [Hpre Hrest]%orb_false_iff. split; [|done].
  intros ->. simpl in Hpre. by rewrite prefix_empty in Hpre.
Qed.

(** A phrase without a space that starts a text, starts its first word. *)
Lemma prefix_before_space p x rest :
  contains " " p = false →
  String.prefix p (x +:+ String " " rest) = true → String.prefix p x = true.
Proof.
  revert x. induction p as [|a p IH]; intros x Hp;
    [intros _; apply prefix_empty|].
  apply no_space_cons in Hp as [Ha Hp].
  destruct x as [|b x]; simpl.
  - by destruct (ascii_dec a " ").
  - destruct (ascii_dec a b); [|done]. by apply IH.
Qed.

Lemma contains_around_space p a rest :
  contains " " p = false →
  contains p (a +:+ String " " rest) = true →
  contains p a = true ∨ contains p rest = true.
Proof.
  intros Hp. induction a as [|c a IH].
  - change ("" +:+ String " " rest) with (String " " rest).
    rewrite contains_cons. intros [Hpre|Hrest]%orb_true_iff; [|by right].
    left. apply (prefix_before_space p "" rest Hp) in Hpre.
    destruct p; [done|]. by destruct p.
  - change (String c a +:+ String " " rest)
      with (String c (a +:+ String " " rest)).
    rewrite !contains_cons. intros [Hpre|Hrest]%orb_true_iff.
    + left. apply orb_true_iff. left.
      by apply (prefix_before_space p (String c a) rest).
    + destruct (IH Hrest) as [Ha|Hr]; [|by right].
      left. apply orb_true_iff. by right.
Qed.

Lemma prefix_app_l p a b :
  String.prefix p a = true → String.prefix p (a +:+ b) = true.
Proof.
  revert a. induction p as [|c p IH]; intros a;
    [intros _; apply prefix_empty|].
  destruct a as [|d a]; simpl; [done|].
  destruct (ascii_dec c d); [apply IH | done].
Qed.

Lemma contains_app_l p a b :
  contains p a = true → contains p (a +:+ b) = true.
Proof.
  induction a as [|c a IH].
  - destruct p; [intros _; apply contains_empty | done].
  - change (String c a +:+ b) with (String c (a +:+ b)).
    rewrite !contains_cons. intros [Hpre|Hrest]%orb_true_iff.
    + apply orb_true_iff. left. by apply (prefix_app_l p (String c a) b).
    + apply orb_true_iff. right. by apply IH.
Qed.

Lemma contains_app_r p a b :
  contains p b = true → contains p (a +:+ b) = true.
Proof.
  intros Hb. induction a as [|c a IH]; [done|].
  change (String c a +:+ b) with (String c (a +:+ b)).
  rewrite contains_cons, IH. apply orb_true_r.
Qed.

Lemma join_cons sep x y l :
  join sep (x :: y :: l) = x +:+ sep +:+ join sep (y :: l).
Proof. done. Qed.

(** A phrase without a space occurs in the joined words exactly when it
    occurs in one of the words. *)
Lemma contains_join p l :
  contains " " p = false → p ≠ "" →
  contains p (join " " l) = true ↔ ∃ t, t ∈ l ∧ contains p t = true.
Proof.
  intros Hsp Hne. induction l as [|x [|y l] IH].
  - split.
    + intros H. by destruct p.
    + by intros (t & ?%elem_of_nil & _).
  - simpl. split.
    + intros H. exists x. split; [by left | done].
    + by intros (t & ->%list_elem_of_singleton & ?).
  - rewrite join_cons.
    change (x +:+ " " +:+ join " " (y :: l))
      with (x +:+ String " " (join " " (y :: l))).
    split.
    + intros [Hx|Hrest]%contains_around_space; [| |done].
      * exists x. split; [by left | done].
      * apply IH in Hrest as (t & Ht & Hin). exists t. split; [by right|done].
    + intros (t & [->|Ht]%elem_of_cons & Hin).
      * by apply contains_app_l.
      * apply contains_app_r. change (contains p (String " " (join " " (y :: l))) = true).
        rewrite contains_cons. apply orb_true_iff. right. apply IH. eauto.
Qed.

Lemma lower_app a b : lower (a +:+ b) = lower a +:+ lower b.
Proof.
  induction a as [|c a IH]; [done|].
  change (lower (String c (a +:+ b))
          = String (lower_char c) (lower a +:+ lower b)).
  simpl. by rewrite IH.
Qed.

Lemma lower_join l : lower (join " " l) = join " " (lower <$> l).
Proof.
  induction l as [|x [|y l] IH]; [done..|].
  rewrite join_cons, !lower_app, IH. done.
Qed.

(** The elements of [l[a:b]] are those at the indices from [a] to [b-1]. *)
Lemma elem_of_slice {A} (a b : nat) (l : list A) (x : A) :
  x ∈ slice a b l ↔ ∃ i, a ≤ i < b ∧ l !! i = Some x.
Proof.
  unfold slice. rewrite list_elem_of_lookup. split.
  - intros [i Hi]. apply lookup_take_Some in Hi as [Hi Hlt].
    rewrite lookup_drop in Hi. exists (a + i). split; [lia | done].
  - intros (i & Hi & Hx). exists (i - a).
    apply lookup_take_Some. split; [|lia].
    rewrite lookup_drop. by replace (a + (i - a)) with i by lia.
Qed.

End StrFacts.

(** ** The lexicon built by [_buildFeatureMappings] *)

Module MappingFacts.
Import FeatureExtractor.

Section WithEnv.
Variable E : Env.

Lemma build_items_well_formed (items : list (string * list string)) m :
  items ⊆ FURNITURE_CATEGORY E →
  well_formed E m → well_formed E (foldl (build_item E) m items).
Proof.
  revert m. induction items as [|item items IH]; intros m Hsub Hm; [done|].
  simpl. apply IH; [set_solver|].
  destruct Hm as [Hdom Hval]. split; simpl.
  - rewrite dom_insert_L. by rewrite Hdom.
  - intros key feature. rewrite lookup_insert. case_decide as Hkey.
    + intros [= <-]. split; [done|]. split.
      * apply list_elem_of_fmap. exists item. split; [done|]. apply Hsub. by left.
      * rewrite lookup_insert_eq. eauto.
    + intros (Hlow & Hin & Hcat)%Hval. split; [done|]. split; [done|].
      rewrite lookup_insert. case_decide; eauto.
Qed.

Lemma self_well_formed : well_formed E (self E).
Proof.
  apply build_items_well_formed; [done|]. split; [done|].
  intros key feature H. simpl in H. by rewrite lookup_empty in H.
Qed.

Lemma synonym_lower key feature :
  synonym_to_feature (self E) !! key = Some feature → Str.lower feature = key.
Proof. intros H. by apply self_well_formed in H as [? _]. Qed.


(** A feature matched by a window phrase is a value of the lexicon. *)
Lemma match_phrase_canonical phrase feature :
  match_phrase E phrase = Return (Some feature) →
  ∃ key, synonym_to_feature (self E) !! key = Some feature.
Proof.
  unfold match_phrase.
  destruct (synonym_to_feature (self E) !! phrase) as [g|] eqn:Hdirect.
  - intros [= <-]. eauto.
  - case_match; [|done].
    intros (result & _ & Hres)%bind_Return.
    destruct result as [|fuzzy_match ?]; [done|].
    injection Hres as Hres. eauto.
Qed.

End WithEnv.

End MappingFacts.

(** ** The windowed scan *)

Module ScanFacts.
Import FeatureExtractor.

Lemma pairwise_disjoint_snoc windows w :
  pairwise_disjoint windows →
  (∀ w1, w1 ∈ windows → window_set w1 ## window_set w) →
  pairwise_disjoint (windows ++ [w]).
Proof.
  intros Hdisj Hnew i j w1 w2 Hne H1 H2.
  apply lookup_app_Some in H1 as [H1|[Hi H1]];
    apply lookup_app_Some in H2 as [H2|[Hj H2]].
  - by apply (Hdisj i j).
  - apply list_lookup_singleton_Some in H2 as [_ <-].
    apply Hnew. by eapply list_elem_of_lookup_2.
  - apply list_lookup_singleton_Some in H1 as [_ <-].
    symmetry. apply Hnew. by eapply list_elem_of_lookup_2.
  - apply list_lookup_singleton_Some in H1 as [? _].
    apply list_lookup_singleton_Some in H2 as [? _]. lia.
Qed.

Section WithEnv.
Variable E : Env.

Lemma overlaps_consumed_false st start_idx window_size :
  overlaps_consumed st start_idx window_size = false ↔
  window_set (start_idx, window_size) ## consumed_indices st.
Proof.
  unfold overlaps_consumed, window_set. simpl.
  rewrite <- not_true_iff_false, existsb_exists. split.
  - intros Hno idx Hidx%elem_of_list_to_set Hin. apply Hno. exists idx.
    split; [by apply list_elem_of_In|]. by apply bool_decide_eq_true.
  - intros Hdisj (idx & Hidx%list_elem_of_In & Hin%bool_decide_eq_true).
    apply (Hdisj idx); [by apply elem_of_list_to_set|done].
Qed.

Lemma overlaps_consumed_true st start_idx window_size :
  overlaps_consumed st start_idx window_size = true ↔
  ∃ idx, start_idx ≤ idx < start_idx + window_size ∧ idx ∈ consumed_indices st.
Proof.
  unfold overlaps_consumed, window_indices. rewrite existsb_exists.
  split; intros (idx & Hidx & Hin); exists idx.
  - apply list_elem_of_In, elem_of_seq in Hidx.
    by apply bool_decide_eq_true in Hin.
  - split; [by apply list_elem_of_In, elem_of_seq|by apply bool_decide_eq_true].
Qed.

(** The four outcomes of one window: skipped, failed, left alone, or
    accepted. *)
Lemma scan_window_cases words window_size start_idx st st' :
  scan_window E words window_size start_idx st = Return st' →
  st' = st ∨
  ∃ feature,
    st' = accept st feature start_idx window_size ∧
    overlaps_consumed st start_idx window_size = false ∧
    (feature ∉ detected_features st) ∧
    feature ≠ "" ∧
    (let phrase :=
       Str.join " " (Str.slice start_idx (start_idx + window_size) words) in
     match_phrase E phrase = Return (Some feature) ∧
     _hasContextualMatch phrase words start_idx = true).
Proof.
  unfold scan_window.
  destruct (overlaps_consumed st start_idx window_size) eqn:Hover.
  { intros [= <-]. by left. }
  intros (matched & Hmatch & Hrest)%bind_Return.
  destruct matched as [feature|]; [|injection Hrest as <-; by left].
  destruct (truthy feature) eqn:Htruthy; [|injection Hrest as <-; by left].
  destruct (_hasContextualMatch _ words start_idx) eqn:Hctx;
    [|injection Hrest as <-; by left].
  case_bool_decide as Hnew; injection Hrest as <-; [|by left].
  right. exists feature. repeat split; try done.
  by intros ->.
Qed.

Lemma scan_window_invariant words window_size start_idx st st' :
  start_idx ∈ start_indices (length words) window_size →
  0 < window_size →
  scan_invariant E words st →
  scan_window E words window_size start_idx st = Return st' →
  scan_invariant E words st'.
Proof.
  intros Hstart Hsize Hinv Hstep.
  apply scan_window_cases in Hstep
    as [->|(feature & -> & Hover & Hnew & Htruthy & Hmatch & Hctx)]; [done|].
  destruct Hinv as (Hnodup & Hjust & Hcons & Hdisj).
  apply overlaps_consumed_false in Hover.
  split; [|split; [|split]]; simpl.
  - apply NoDup_app. split; [done|]. split; [|apply NoDup_singleton].
    intros f Hf ->%list_elem_of_singleton. done.
  - apply Forall2_app; [done|]. constructor; [|constructor].
    unfold justifies; simpl. split; [done|]. split; [|done].
    apply elem_of_seq in Hstart. lia.
  - rewrite Hcons, fmap_app, union_list_app_L, (comm_L (∪)).
    f_equal. symmetry. apply union_list_singleton_L.
  - apply pairwise_disjoint_snoc; [done|].
    intros w1 Hw1. assert (window_set w1 ⊆ consumed_indices st) as Hsub.
    { rewrite Hcons. intros idx Hidx. apply elem_of_union_list.
      exists (window_set w1). split; [|done].
      apply list_elem_of_fmap. eauto. }
    intros idx Hidx1 Hidx. apply (Hover idx Hidx). by apply Hsub.
Qed.

Lemma scan_invariant_init words : scan_invariant E words scan_init.
Proof.
  split; [constructor|]. split; [constructor|]. split; [done|].
  by intros i j w1 w2 _ ?.
Qed.

Lemma scan_size_invariant words window_size st st' :
  0 < window_size →
  scan_invariant E words st →
  scan_size E words window_size st = Return st' →
  scan_invariant E words st'.
Proof.
  intros Hsize Hinv. unfold scan_size.
  apply (for_each_invariant (scan_invariant E words)); [|done].
  intros start_idx s1 s2 Hstart. by apply scan_window_invariant.
Qed.

Lemma scan_invariant_final words st :
  scan E words = Return st → scan_invariant E words st.
Proof.
  unfold scan.
  apply (for_each_invariant (scan_invariant E words));
    [|apply scan_invariant_init].
  intros window_size s1 s2 Hsize. apply scan_size_invariant.
  repeat (apply elem_of_cons in Hsize as [->|Hsize]; [lia|]).
  by apply elem_of_nil in Hsize.
Qed.

(** One window leaves the features detected so far in place and consumes
    no index twice. *)
Lemma scan_window_grows words window_size start_idx st st' :
  scan_window E words window_size start_idx st = Return st' →
  consumed_indices st ⊆ consumed_indices st' ∧
  detected_features st `prefix_of` detected_features st'.
Proof.
  intros [->|(feature & -> & _)]%scan_window_cases; [done|].
  split; simpl.
  - apply union_subseteq_r.
  - by apply prefix_app_r.
Qed.

Lemma scan_windows_grow words window_size starts st st' :
  for_each (scan_window E words window_size) starts st = Return st' →
  consumed_indices st ⊆ consumed_indices st' ∧
  detected_features st `prefix_of` detected_features st'.
Proof.
  apply (for_each_invariant
           (λ s, consumed_indices st ⊆ consumed_indices s ∧
                 detected_features st `prefix_of` detected_features s));
    [|done].
  intros start_idx s1 s2 _ [Hc Hd] [Hc' Hd']%scan_window_grows.
  split; by etrans.
Qed.

(** A phrase of the lexicon matches directly. *)
Lemma match_phrase_direct phrase feature :
  synonym_to_feature (self E) !! phrase = Some feature →
  match_phrase E phrase = Return (Some feature).
Proof. unfold match_phrase. by intros ->. Qed.

(** A phrase of at most six characters matches directly or not at all. *)
Lemma match_phrase_short phrase :
  String.length phrase ≤ 6 →
  match_phrase E phrase = Return (synonym_to_feature (self E) !! phrase).
Proof.
  intros Hlen. unfold match_phrase.
  destruct (synonym_to_feature (self E) !! phrase); [done|].
  by rewrite (proj2 (Nat.ltb_ge 6 (String.length phrase))).
Qed.

(** A window whose phrase matches nothing changes nothing. *)
Lemma scan_window_no_match words window_size start_idx st :
  match_phrase E
    (Str.join " " (Str.slice start_idx (start_idx + window_size) words))
    = Return None →
  scan_window E words window_size start_idx st = Return st.
Proof. intros Hnone. unfold scan_window. rewrite Hnone. by case_match. Qed.

(** A window that is free, matches and passes the contextual check has
    its feature in the list afterwards. *)
Lemma scan_window_match words window_size start_idx st st' feature :
  let phrase :=
    Str.join " " (Str.slice start_idx (start_idx + window_size) words) in
  overlaps_consumed st start_idx window_size = false →
  match_phrase E phrase = Return (Some feature) →
  feature ≠ "" →
  _hasContextualMatch phrase words start_idx = true →
  scan_window E words window_size start_idx st = Return st' →
  feature ∈ detected_features st'.
Proof.
  intros phrase Hover Hmatch Hne Hctx. unfold scan_window.
  rewrite Hover. fold phrase. rewrite Hmatch. simpl.
  destruct feature; [done|]. simpl. rewrite Hctx.
  case_bool_decide as Hnew; intros [= <-].
  - simpl. apply elem_of_app. right. by left.
  - done.
Qed.

(** When [fuzzyMatch] raises nothing, neither does the scan. *)
Lemma match_phrase_returns phrase :
  fuzzyMatch_returns E → ∃ matched, match_phrase E phrase = Return matched.
Proof.
  intros Hfuzzy. unfold match_phrase.
  destruct (synonym_to_feature (self E) !! phrase); [eauto|].
  case_match; [|eauto].
  destruct (Hfuzzy phrase (all_synonyms (self E)) (fuzzy_threshold phrase))
    as [result ->]; simpl.
  destruct result; eauto.
Qed.

Lemma scan_window_returns words window_size start_idx st :
  fuzzyMatch_returns E →
  ∃ st', scan_window E words window_size start_idx st = Return st'.
Proof.
  intros Hfuzzy. unfold scan_window.
  case_match; [eauto|].
  destruct (match_phrase_returns
              (Str.join " "
                 (Str.slice start_idx (start_idx + window_size) words)) Hfuzzy)
    as [matched ->]; simpl.
  destruct matched; [|eauto]. repeat case_match; eauto.
Qed.

Lemma scan_returns words :
  fuzzyMatch_returns E → ∃ st, scan E words = Return st.
Proof.
  intros Hfuzzy. apply for_each_returns. intros window_size s1.
  apply for_each_returns. intros start_idx s2.
  by apply scan_window_returns.
Qed.

End WithEnv.

End ScanFacts.

(** ** Disambiguation *)

Module DisambiguationFacts.
Import FeatureExtractor.

Lemma disambiguate_cases text_lower detected :
  disambiguate text_lower detected = detected ∨
  ∃ dropped,
    disambiguate text_lower detected = filter (λ f, f ≠ dropped) detected.
Proof. unfold disambiguate. repeat case_match; eauto. Qed.

Lemma disambiguate_subset text_lower detected feature :
  feature ∈ disambiguate text_lower detected → feature ∈ detected.
Proof.
  destruct (disambiguate_cases text_lower detected) as [->|[dropped ->]];
    [done|].
  by intros [_ ?]%list_elem_of_filter.
Qed.

Lemma disambiguate_NoDup text_lower detected :
  NoDup detected → NoDup (disambiguate text_lower detected).
Proof.
  destruct (disambiguate_cases text_lower detected) as [->|[dropped ->]];
    [done|].
  apply NoDup_filter.
Qed.

(** A feature other than the two shapes is never dropped. *)
Lemma disambiguate_keeps text_lower detected feature :
  feature ∈ detected → feature ≠ "l shape" → feature ≠ "c shape" →
  feature ∈ disambiguate text_lower detected.
Proof.
  intros Hin Hl Hc. unfold disambiguate.
  repeat case_match; try done; by apply list_elem_of_filter.
Qed.

Lemma existsb_contains_self name detected :
  name ∈ detected → existsb (Str.contains name) detected = true.
Proof.
  intros Hin. apply existsb_exists. exists name.
  split; [by apply list_elem_of_In|].
  apply StrFacts.contains_refl.
Qed.

End DisambiguationFacts.

(** ** The claims about feature extraction *)

Section FeatureExtractionClaims.
Import FeatureExtractor.
Variable E : Env.

(** What [extractFeatures] returns is the disambiguated list of the scan
    of the lowercased text. *)
Lemma extractFeatures_Return text features :
  extractFeatures E text = Return features ↔
  ∃ st, scan E (Str.split (Str.lower text)) = Return st ∧
        features = disambiguate (Str.lower text) (detected_features st).
Proof.
  unfold extractFeatures, _getCategoriesFromText. split.
  - intros (detected & (st & Hscan & [= <-])%bind_Return & [= <-])%bind_Return.
    eauto.
  - intros (st & -> & ->). done.
Qed.

(** C3. When the detected features contain both "l shape" and "c shape":
    if the lowercased text contains "l" but not "c", "c shape" is dropped
    (and nothing else); if it contains "c" but not "l", "l shape" is
    dropped (and nothing else); if it contains both or neither, the list
    is returned as it is, with both features. *)
Theorem shape_disambiguation (text : string) (detected : list string) :
  _getCategoriesFromText E (Str.lower text) = Return detected →
  "l shape" ∈ detected → "c shape" ∈ detected →
  let has_l := Str.contains "l" (Str.lower text) in
  let has_c := Str.contains "c" (Str.lower text) in
  (has_l = true → has_c = false →
     extractFeatures E text = Return (filter (λ f, f ≠ "c shape") detected) ∧
     ("c shape" ∉ filter (λ f, f ≠ "c shape") detected) ∧
     "l shape" ∈ filter (λ f, f ≠ "c shape") detected) ∧
  (has_c = true → has_l = false →
     extractFeatures E text = Return (filter (λ f, f ≠ "l shape") detected) ∧
     ("l shape" ∉ filter (λ f, f ≠ "l shape") detected) ∧
     "c shape" ∈ filter (λ f, f ≠ "l shape") detected) ∧
  (has_l = has_c → extractFeatures E text = Return detected).
Proof.
  intros Hscan Hl Hc has_l has_c. unfold extractFeatures. rewrite Hscan.
  simpl. unfold disambiguate.
  rewrite !DisambiguationFacts.existsb_contains_self by done. simpl.
  fold has_l has_c. split; [|split].
  - intros -> ->. simpl. split; [done|]. split.
    + by intros [? _]%list_elem_of_filter.
    + by apply list_elem_of_filter.
  - intros -> ->. simpl. split; [done|]. split.
    + by intros [? _]%list_elem_of_filter.
    + by apply list_elem_of_filter.
  - intros ->. by destruct has_c.
Qed.

(** C4. In one call of the windowed scan: every window leaves the
    consumed-index set the same or larger; a window that contains a
    consumed index is skipped, the state is unchanged; and when the scan
    ends, the consumed indices are those of the accepted windows, one
    window per detected feature, and no two accepted windows share a token
    index. *)
Theorem windowed_scan_non_overlap (words : list string) :
  (∀ window_size start_idx st st',
     scan_window E words window_size start_idx st = Return st' →
     consumed_indices st ⊆ consumed_indices st') ∧
  (∀ window_size start_idx st idx,
     start_idx ≤ idx < start_idx + window_size →
     idx ∈ consumed_indices st →
     scan_window E words window_size start_idx st = Return st) ∧
  (∀ st,
     scan E words = Return st →
     consumed_indices st = ⋃ (window_set <$> accepted st) ∧
     length (accepted st) = length (detected_features st) ∧
     pairwise_disjoint (accepted st)).
Proof.
  split; [|split].
  - intros window_size start_idx st st' Hstep.
    by apply ScanFacts.scan_window_grows in Hstep as [? _].
  - intros window_size start_idx st idx Hidx Hin. unfold scan_window.
    by rewrite (proj2 (ScanFacts.overlaps_consumed_true _ _ _)) by eauto.
  - intros st (_ & Hjust & Hcons & Hdisj)%ScanFacts.scan_invariant_final.
    split; [done|]. split; [|done]. by eapply Forall2_length.
Qed.

(** C8. On an empty text, or one made of whitespace only, [extractFeatures]
    returns the empty list; it raises nothing, whatever [fuzzyMatch] does. *)
Theorem extractFeatures_blank (text : string) :
  Str.blank text = true → extractFeatures E text = Return [].
Proof.
  intros Hblank. unfold extractFeatures, _getCategoriesFromText.
  rewrite StrFacts.split_blank by by rewrite StrFacts.blank_lower.
  reflexivity.
Qed.

(** C9. Every element of the list that [extractFeatures] returns is a value
    of [synonym_to_feature], hence a main feature of FURNITURE_CATEGORY with
    one category under [feature_to_category], and the list has no
    duplicates. *)
Theorem extractFeatures_canonical (text : string) (features : list string) :
  extractFeatures E text = Return features →
  NoDup features ∧
  ∀ feature, feature ∈ features →
    (∃ key, synonym_to_feature (self E) !! key = Some feature) ∧
    feature ∈ (FURNITURE_CATEGORY E).*1 ∧
    ∃ category, feature_to_category (self E) !! feature = Some category.
Proof.
  intros (st & Hscan & ->)%extractFeatures_Return.
  apply ScanFacts.scan_invariant_final in Hscan as (Hnodup & Hjust & _).
  split; [by apply DisambiguationFacts.disambiguate_NoDup|].
  intros feature Hin%DisambiguationFacts.disambiguate_subset.
  apply list_elem_of_lookup in Hin as [i Hi].
  destruct (Forall2_lookup_r _ _ _ _ _ Hjust Hi)
    as (w & _ & _ & _ & Hmatch & _).
  apply MappingFacts.match_phrase_canonical in Hmatch as [key Hkey].
  split; [eauto|].
  by apply MappingFacts.self_well_formed in Hkey as (_ & ? & ?).
Qed.

End FeatureExtractionClaims.

(** ** The contextual check and the fuzzy match *)

Section MatchingClaims.
Import FeatureExtractor.
Variable E : Env.

Lemma furniture_part_plain part :
  part ∈ furniture_parts → Str.contains " " part = false ∧ part ≠ "".
Proof.
  unfold furniture_parts. intros Hin.
  repeat (apply elem_of_cons in Hin as [->|Hin]; [done|]).
  by apply elem_of_nil in Hin.
Qed.

(** The check of a leather phrase, token by token. *)
Lemma leather_check phrase words position :
  Str.contains "leather" phrase = true →
  _hasContextualMatch phrase words position = true ↔
  ∃ part i token,
    part ∈ furniture_parts ∧
    position - 2 ≤ i ≤ position + 2 ∧
    words !! i = Some token ∧
    Str.contains part (Str.lower token) = true.
Proof.
  intros Hleather. unfold _hasContextualMatch. rewrite Hleather.
  rewrite existsb_exists. setoid_rewrite StrFacts.lower_join. split.
  - intros (part & Hpart%list_elem_of_In & Hin).
    destruct (furniture_part_plain part Hpart) as [Hplain Hne].
    apply StrFacts.contains_join in Hin as (t & Ht & Hin); [|done..].
    apply list_elem_of_fmap in Ht as (token & -> & Htoken).
    apply StrFacts.elem_of_slice in Htoken as (i & Hi & Hlook).
    exists part, i, token. repeat split; try done; lia.
  - intros (part & i & token & Hpart & Hi & Hlook & Hin).
    destruct (furniture_part_plain part Hpart) as [Hplain Hne].
    exists part. split; [by apply list_elem_of_In|].
    apply StrFacts.contains_join; [done..|].
    exists (Str.lower token). split; [|done].
    apply list_elem_of_fmap. exists token. split; [done|].
    apply StrFacts.elem_of_slice. exists i. split; [|done].
    apply lookup_lt_Some in Hlook. lia.
Qed.

(** "leather wallet": the two windows that contain "leather" fail the
    check, and "wallet" is too short for a fuzzy match. *)
Lemma leather_wallet_features features feature :
  extractFeatures E "leather wallet" = Return features →
  feature ∈ features →
  Str.lower feature = "wallet".
Proof.
  intros (st & Hscan & ->)%extractFeatures_Return
         Hin%DisambiguationFacts.disambiguate_subset.
  change (Str.split (Str.lower "leather wallet"))
    with ["leather"; "wallet"] in Hscan.
  apply ScanFacts.scan_invariant_final in Hscan as (_ & Hjust & _).
  apply list_elem_of_lookup in Hin as [i Hi].
  destruct (Forall2_lookup_r _ _ _ _ _ Hjust Hi)
    as ([start size] & _ & Hsize & Hfit & Hmatch & _ & Hctx).
  simpl in Hsize, Hfit.
  assert (start = 0 ∧ size = 1 ∨ start = 1 ∧ size = 1 ∨ start = 0 ∧ size = 2)
    as [[-> ->]|[[-> ->]|[-> ->]]] by lia.
  - by vm_compute in Hctx.
  - change (match_phrase E "wallet" = Return (Some feature)) in Hmatch.
    rewrite ScanFacts.match_phrase_short in Hmatch by (simpl; lia).
    injection Hmatch as Hmatch.
    by apply MappingFacts.synonym_lower in Hmatch.
  - by vm_compute in Hctx.
Qed.

(** "leather sofa cushion": when no longer window that starts at
    "leather" matches, the window "leather" is reached, and accepted. *)
Lemma leather_sofa_cushion_feature features feature :
  synonym_to_feature (self E) !! "leather" = Some feature →
  match_phrase E "leather sofa cushion" = Return None →
  match_phrase E "leather sofa" = Return None →
  extractFeatures E "leather sofa cushion" = Return features →
  feature ∈ features.
Proof.
  intros Hleather Hnone3 Hnone2 (st & Hscan & ->)%extractFeatures_Return.
  pose proof (MappingFacts.synonym_lower E _ _ Hleather) as Hlower.
  apply DisambiguationFacts.disambiguate_keeps;
    [|by intros ->|by intros ->].
  change (Str.split (Str.lower "leather sofa cushion"))
    with ["leather"; "sofa"; "cushion"] in Hscan.
  set (words := ["leather"; "sofa"; "cushion"]) in *.
  apply for_each_cons_Return in Hscan as (s4 & H4 & Hscan).
  injection H4 as <-.
  apply for_each_cons_Return in Hscan as (s3 & H3 & Hscan).
  apply for_each_cons_Return in H3 as (s3' & H3 & H3end).
  injection H3end as ->.
  rewrite ScanFacts.scan_window_no_match in H3 by exact Hnone3.
  injection H3 as <-.
  apply for_each_cons_Return in Hscan as (s2 & H2 & Hscan).
  apply for_each_cons_Return in H2 as (s2a & H2a & H2).
  rewrite ScanFacts.scan_window_no_match in H2a by exact Hnone2.
  injection H2a as <-.
  apply for_each_cons_Return in H2 as (s2b & H2b & H2end).
  injection H2end as ->.
  apply for_each_cons_Return in Hscan as (s1 & H1 & Hscan).
  injection Hscan as ->.
  apply for_each_cons_Return in H1 as (s1a & H1a & H1).
  assert (feature ∈ detected_features s1a) as Hin.
  { apply (ScanFacts.scan_window_match E words 1 0 s2 s1a feature);
      [|by apply ScanFacts.match_phrase_direct|by intros ->|done..].
    by apply ScanFacts.scan_window_cases in H2b as [->|(g & -> & _)]. }
  apply ScanFacts.scan_windows_grow in H1 as [_ [rest ->]].
  apply elem_of_app. by left.
Qed.

Lemma extractFeatures_returns text :
  fuzzyMatch_returns E → ∃ features, extractFeatures E text = Return features.
Proof.
  intros Hfuzzy.
  destruct (ScanFacts.scan_returns E (Str.split (Str.lower text)) Hfuzzy)
    as [st Hscan].
  eexists. apply extractFeatures_Return. eauto.
Qed.

(** A term that is one of the tokens of the window also occurs in the
    joined window: the rule as section 4.1a words it is sufficient for the
    check of the code. *)
Lemma term_in_window_accepted phrase words position :
  Acceptance.hasContextualMatch_spec phrase words position = true →
  _hasContextualMatch phrase words position = true.
Proof.
  unfold Acceptance.hasContextualMatch_spec.
  destruct (Str.contains "leather" phrase) eqn:Hleather.
  - intros Hterm. apply leather_check; [done|].
    unfold Acceptance.term_in_window in Hterm.
    apply existsb_exists in Hterm as (part & Hpart & Hin).
    apply list_elem_of_In in Hpart. apply bool_decide_eq_true in Hin.
    apply list_elem_of_fmap in Hin as (token & Heq & Htoken).
    apply StrFacts.elem_of_slice in Htoken as (i & Hi & Hlook).
    exists part, i, token. repeat split; try done; try lia.
    rewrite <- Heq. apply StrFacts.contains_refl.
  - intros _. unfold _hasContextualMatch. by rewrite Hleather.
Qed.

(** C5, amended. A phrase that contains "leather" passes the contextual
    check exactly when one of sofa, chair, back, seat, arm, cushion occurs
    as a substring of a token at most two places before or after the start
    of the phrase; any other phrase passes. A window in which one of the
    six terms is itself a token passes, so the rule of section 4.1a is
    sufficient, but a token need not be a term. "leather wallet" yields no
    feature with "leather" in its name. "leather sofa cushion" yields the
    feature of the lexicon entry "leather", provided no longer window
    starting there matches. *)
Theorem leather_contextual_guard :
  (∀ phrase words position,
     Str.contains "leather" phrase = true →
     _hasContextualMatch phrase words position = true ↔
     ∃ part i token,
       part ∈ furniture_parts ∧
       position - 2 ≤ i ≤ position + 2 ∧
       words !! i = Some token ∧
       Str.contains part (Str.lower token) = true) ∧
  (∀ phrase words position,
     Str.contains "leather" phrase = false →
     _hasContextualMatch phrase words position = true) ∧
  (∀ phrase words position,
     Acceptance.hasContextualMatch_spec phrase words position = true →
     _hasContextualMatch phrase words position = true) ∧
  (∀ features feature,
     extractFeatures E "leather wallet" = Return features →
     feature ∈ features →
     Str.contains "leather" (Str.lower feature) = false) ∧
  (∀ feature,
     fuzzyMatch_returns E →
     synonym_to_feature (self E) !! "leather" = Some feature →
     match_phrase E "leather sofa cushion" = Return None →
     match_phrase E "leather sofa" = Return None →
     ∃ features,
       extractFeatures E "leather sofa cushion" = Return features ∧
       feature ∈ features ∧
       Str.contains "leather" (Str.lower feature) = true).
Proof.
  split; [exact leather_check|]. split; [|split; [|split]].
  - intros phrase words position Hno. unfold _hasContextualMatch.
    by rewrite Hno.
  - exact term_in_window_accepted.
  - intros features feature Hret Hin.
    by rewrite (leather_wallet_features features feature Hret Hin).
  - intros feature Hfuzzy Hleather Hnone3 Hnone2.
    destruct (extractFeatures_returns "leather sofa cushion" Hfuzzy)
      as [features Hret].
    exists features. split; [done|]. split.
    + by apply leather_sofa_cushion_feature.
    + by rewrite (MappingFacts.synonym_lower E _ _ Hleather).
Qed.

End MatchingClaims.

Section FuzzyClaims.
Import FeatureExtractor.


Lemma fuzzyMatch_spec_Return similarity phrase vocabulary threshold :
  ∃ result,
    Helpers.fuzzyMatch_spec similarity phrase vocabulary threshold
    = Return result.
Proof. unfold Helpers.fuzzyMatch_spec. repeat case_match; eauto. Qed.


End FuzzyClaims.

(** ** The pipeline and the orchestrator *)

Section OrchestratorClaims.
Import FeatureExtractor Config FurnitureParser.

(** The pipeline reads the lexicon and [fuzzyMatch], and nothing else of
    what the sources import. *)
Lemma extractFeatures_reads (E E' : Env) (text : string) :
  FURNITURE_CATEGORY E' = FURNITURE_CATEGORY E →
  CATEGORY_MAPPINGS E' = CATEGORY_MAPPINGS E →
  fuzzyMatch E' = fuzzyMatch E →
  extractFeatures E' text = extractFeatures E text.
Proof.
  destruct E, E'; simpl. by intros -> -> ->.
Qed.

(** C2, as amended. The pipeline run on the corrected query text is the
    windowed matcher followed by disambiguation, without the contextual
    pattern matcher: every feature of its list was detected by the windowed
    matcher, and the list is the same whatever the pattern tables and the
    regular-expression engine are. *)
Theorem pipeline_is_windowed_matcher (E : Env) (text : string) :
  (∀ features,
     extractFeatures E text = Return features →
     ∃ detected,
       _getCategoriesFromText E (Str.lower text) = Return detected ∧
       features = disambiguate (Str.lower text) detected ∧
       ∀ feature, feature ∈ features → feature ∈ detected) ∧
  (∀ patterns fuzzy_patterns search finditer,
     extractFeatures
       {| FURNITURE_CATEGORY := FURNITURE_CATEGORY E;
          CATEGORY_MAPPINGS := CATEGORY_MAPPINGS E;
          FEATURE_CONTEXTUAL_PATTERNS := patterns;
          FUZZY_PATTERNS := fuzzy_patterns;
          fuzzyMatch := fuzzyMatch E;
          re_search := search;
          re_finditer := finditer |} text
     = extractFeatures E text).
Proof.
  split.
  - intros features (st & Hscan & ->)%extractFeatures_Return.
    exists (detected_features st). split.
    + unfold _getCategoriesFromText. by rewrite Hscan.
    + split; [done|]. intros feature.
      apply DisambiguationFacts.disambiguate_subset.
  - intros. by apply extractFeatures_reads.
Qed.

Variable E : Env.
Variable X : Extractors.

(** Whatever the extractors return, the call of the constructor is not
    reached or fails: [structureQuery] never returns. *)
Lemma structureQuery_never_returns query result :
  structureQuery E X query ≠ Return result.
Proof.
  unfold structureQuery, structureQuery_kwargs.
  destruct (classifyProductType X query) as [[[pt pc] cq]|?]; [|done]. simpl.
  destruct (extractFeatures E cq) as [[|f1 [|f2 [|? ?]]]|?]; try done. simpl.
  destruct (extractClassification X query) as [summary|?]; [|done]. simpl.
  destruct (extractPriceRange X query) as [price|?]; [|done]. simpl.
  by vm_compute.
Qed.

(** C1, as amended. [structureQuery] handles no exception: the one raised
    by the product-type classifier, by the feature extraction, by the
    classification extractor or by the price extractor is the outcome of
    [structureQuery]. *)
Theorem structureQuery_propagates (query : string) (e : exn) :
  (classifyProductType X query = Raise e →
   structureQuery E X query = Raise e) ∧
  (∀ types confidences corrected,
     classifyProductType X query = Return (types, confidences, corrected) →
     extractFeatures E corrected = Raise e →
     structureQuery E X query = Raise e) ∧
  (∀ types confidences corrected first second,
     classifyProductType X query = Return (types, confidences, corrected) →
     extractFeatures E corrected = Return [first; second] →
     extractClassification X query = Raise e →
     structureQuery E X query = Raise e) ∧
  (∀ types confidences corrected first second summary,
     classifyProductType X query = Return (types, confidences, corrected) →
     extractFeatures E corrected = Return [first; second] →
     extractClassification X query = Return summary →
     extractPriceRange X query = Raise e →
     structureQuery E X query = Raise e).
Proof.
  unfold structureQuery, structureQuery_kwargs.
  split; [|split; [|split]].
  - by intros ->.
  - intros types confidences corrected -> Hfeatures. simpl.
    by rewrite Hfeatures.
  - intros types confidences corrected first second -> Hfeatures Hsummary.
    simpl. rewrite Hfeatures. simpl. by rewrite Hsummary.
  - intros types confidences corrected first second summary
           -> Hfeatures Hsummary Hprice.
    simpl. rewrite Hfeatures. simpl. rewrite Hsummary. simpl.
    by rewrite Hprice.
Qed.

End OrchestratorClaims.

(** ** Suggestions *)

Section SuggestionClaims.
Import Config QuerySuggestion.
Variable D : DatabaseManager.Database.
Variable FURNITURE_STYLES : list (string * list string).

(** C10. [suggestsQuery] returns a [SuggestionResult], which is true, so
    that [suggestQueryResults] is never [False]: it is the mapping with the
    keys product_name, brand_name and styles, in this order, each bound to
    a list. *)
Theorem suggestQueryResults_mapping (query : string) :
  truthy (suggestsQuery D FURNITURE_STYLES query) = true ∧
  suggestQueryResults D FURNITURE_STYLES query ≠ PyFalse ∧
  ∃ products brands styles,
    suggestQueryResults D FURNITURE_STYLES query
    = Mapping [("product_name", Entries products);
               ("brand_name", Entries brands);
               ("styles", Names styles)].
Proof.
  split; [done|]. split; [done|]. unfold suggestQueryResults. simpl. eauto.
Qed.

End SuggestionClaims.

(** ** The claims on concrete tables *)

Section Examples.
Import FeatureExtractor Config FurnitureParser QuerySuggestion.

(** C1 fails as stated: with a classifier that raises, and also with
    extractors that all succeed, [structureQuery] raises. *)
Lemma structureQuery_raises :
  structureQuery Demo.env Demo.extractors_failing "leather sofa"
  = Raise (Exception "classifier") ∧
  structureQuery Demo.env Demo.extractors "leather sofa" = Raise ValueError.
Proof. split; by vm_compute. Qed.

Lemma structureQuery_propagates_witness :
  structureQuery Demo.env Demo.extractors_failing "leather sofa"
  = Raise (Exception "classifier").
Proof.
  destruct (structureQuery_propagates Demo.env Demo.extractors_failing
              "leather sofa" (Exception "classifier")) as [Hraise _].
  apply Hraise. reflexivity.
Defined.

(** C2 fails as stated: the pattern pass detects "tufted" in "button
    sofa", the pipeline returns no feature. *)
Lemma pattern_feature_not_in_pipeline :
  _extractContextualCategories Demo.env "button sofa" = ["tufted"] ∧
  extractFeatures Demo.env "button sofa" = Return [].
Proof. split; by vm_compute. Qed.

Lemma pipeline_is_windowed_matcher_witness :
  ∃ detected,
    _getCategoriesFromText Demo.env (Str.lower "l shape x shapes")
    = Return detected ∧
    ["l shape"] = disambiguate (Str.lower "l shape x shapes") detected ∧
    ∀ feature, feature ∈ ["l shape"] → feature ∈ detected.
Proof.
  destruct (pipeline_is_windowed_matcher Demo.env "l shape x shapes")
    as [Hsub _].
  apply Hsub. by vm_compute.
Defined.

Lemma shape_disambiguation_witness :
  _getCategoriesFromText Demo.env (Str.lower "l shape x shapes")
  = Return ["l shape"; "c shape"] ∧
  extractFeatures Demo.env "l shape x shapes" = Return ["l shape"].
Proof.
  assert (_getCategoriesFromText Demo.env (Str.lower "l shape x shapes")
          = Return ["l shape"; "c shape"]) as Hscan by (by vm_compute).
  split; [exact Hscan|].
  destruct (shape_disambiguation Demo.env _ _ Hscan) as (Hl & _ & _);
    [repeat constructor..|].
  destruct (Hl eq_refl eq_refl) as [Hret _]. exact Hret.
Defined.

Lemma windowed_scan_non_overlap_witness :
  let words := ["l"; "shape"; "leather"; "sofa"] in
  let st := accept (accept scan_init "l shape" 0 2) "leather" 2 1 in
  scan Demo.env words = Return st ∧
  accepted st = [(0, 2); (2, 1)] ∧
  pairwise_disjoint (accepted st).
Proof.
  intros words st.
  assert (scan Demo.env words = Return st) as Hscan by (by vm_compute).
  split; [exact Hscan|]. split; [reflexivity|].
  destruct (windowed_scan_non_overlap Demo.env words) as (_ & _ & Hend).
  destruct (Hend st Hscan) as (_ & _ & Hdisjoint). exact Hdisjoint.
Defined.

(** C5 fails as stated: no token of "leather backpack" is a
    furniture-part term, yet the check accepts "leather", since "backpack"
    contains "back", and the pipeline returns the feature. *)
Lemma leather_backpack_accepted :
  Forall (λ token, token ∉ furniture_parts) ["leather"; "backpack"] ∧
  Acceptance.hasContextualMatch_spec "leather" ["leather"; "backpack"] 0
  = false ∧
  _hasContextualMatch "leather" ["leather"; "backpack"] 0 = true ∧
  extractFeatures Demo.env "leather backpack" = Return ["leather"].
Proof.
  split; [|by vm_compute].
  apply (bool_decide_unpack _). by vm_compute.
Qed.

Lemma leather_contextual_guard_witness :
  ∃ features,
    extractFeatures Demo.env "leather sofa cushion" = Return features ∧
    "leather" ∈ features ∧
    Str.contains "leather" (Str.lower "leather") = true.
Proof.
  destruct (leather_contextual_guard Demo.env) as (_ & _ & _ & _ & Hsofa).
  apply Hsofa.
  - intros phrase vocabulary threshold. apply fuzzyMatch_spec_Return.
  - by vm_compute.
  - by vm_compute.
  - by vm_compute.
Defined.


(** C7, where the code departs from it. On "l shape leather sofa" the two
    detected features are unpacked into [features] and [corrected_query]:
    the constructor is passed the string "l shape" as features and
    "leather" as suggested query, although the classifier corrected
    nothing, and, [styles] missing, it raises TypeError. A query with
    another number of features does not get that far. *)
Theorem structureQuery_two_features :
  structureQuery_kwargs Demo.env Demo.extractors "l shape leather sofa"
  = Return [("product_type", PList ["Sofa"]);
            ("features", PStr "l shape");
            ("price_range", PNone);
            ("location", PStr "");
            ("confidence_score", PFloat (9 # 10)%Q);
            ("classification_summary", PDict []);
            ("extras", PList []);
            ("original_query", PStr "l shape leather sofa");
            ("suggested_query", PStr "leather")] ∧
  structureQuery Demo.env Demo.extractors "l shape leather sofa"
  = Raise TypeError ∧
  structureQuery Demo.env Demo.extractors "sofa" = Raise ValueError.
Proof. repeat split; by vm_compute. Qed.

Lemma extractFeatures_blank_witness :
  Str.blank "   " = true ∧
  extractFeatures Demo.env_failing_fuzzy "   " = Return [].
Proof.
  split; [reflexivity|]. apply extractFeatures_blank. reflexivity.
Defined.

Lemma extractFeatures_canonical_witness :
  extractFeatures Demo.env "l shape leather sofa"
  = Return ["l shape"; "leather"] ∧
  NoDup ["l shape"; "leather"] ∧
  ∀ feature, feature ∈ ["l shape"; "leather"] →
    (∃ key, synonym_to_feature (self Demo.env) !! key = Some feature) ∧
    feature ∈ (FURNITURE_CATEGORY Demo.env).*1 ∧
    ∃ category, feature_to_category (self Demo.env) !! feature = Some category.
Proof.
  assert (extractFeatures Demo.env "l shape leather sofa"
          = Return ["l shape"; "leather"]) as Hret by (by vm_compute).
  split; [exact Hret|].
  exact (extractFeatures_canonical Demo.env _ _ Hret).
Defined.

Lemma suggestQueryResults_mapping_witness :
  suggestQueryResults Demo.database Demo.furniture_styles "mod" ≠ PyFalse.
Proof.
  destruct (suggestQueryResults_mapping Demo.database Demo.furniture_styles
              "mod") as (_ & Hmapping & _).
  exact Hmapping.
Defined.

End Examples.

(** * Further properties *)

(** ** The lexicon *)

Section LexiconProperties.
Import FeatureExtractor.
Variable E : Env.

Lemma build_items_snoc items item m :
  foldl (build_item E) m (items ++ [item])
  = build_item E (foldl (build_item E) m items) item.
Proof. by rewrite foldl_app. Qed.

(** The lookup of a lowercased main feature finds a main feature with
    that lowercase form, and the feature's category is the one of
    [CATEGORY_MAPPINGS], "Other" when it has none. *)
Lemma build_items_lookup items feature :
  feature ∈ items.*1 →
  let m := foldl (build_item E) empty_mappings items in
  Str.lower feature ∈ all_synonyms m ∧
  (∃ found, synonym_to_feature m !! Str.lower feature = Some found ∧
            Str.lower found = Str.lower feature) ∧
  (NoDup (Str.lower <$> items.*1) →
   synonym_to_feature m !! Str.lower feature = Some feature) ∧
  feature_to_category m !! feature
  = Some (default "Other" (CATEGORY_MAPPINGS E !! feature)).
Proof.
  induction items as [|item items IH] using rev_ind; [by intros ?%elem_of_nil|].
  rewrite fmap_app, build_items_snoc. simpl.
  intros [Hin|Hin]%elem_of_app;
    [|apply list_elem_of_singleton in Hin as ->].
  - destruct (IH Hin) as (Hsyn & (found & Hfound & Hlow) & Hunique & Hcat).
    split; [apply elem_of_union; by right|]. split; [|split].
    + destruct (decide (Str.lower item.1 = Str.lower feature)) as [Heq|Hne].
      * exists item.1. by rewrite Heq, lookup_insert_eq.
      * exists found. by rewrite lookup_insert_ne.
    + rewrite fmap_app. intros (Hnodup & Hfresh & _)%NoDup_app.
      rewrite lookup_insert_ne; [by apply Hunique|].
      intros Heq. apply (Hfresh (Str.lower feature)).
      * apply list_elem_of_fmap. eauto.
      * rewrite <- Heq. by left.
    + destruct (decide (item.1 = feature)) as [->|Hne].
      * by rewrite lookup_insert_eq.
      * by rewrite lookup_insert_ne.
  - split; [apply elem_of_union; left; by apply elem_of_singleton|].
    split; [|split].
    + exists item.1. by rewrite lookup_insert_eq.
    + intros _. by rewrite lookup_insert_eq.
    + by rewrite lookup_insert_eq.
Qed.

(** The value under a key is the last main feature, in the order of
    FURNITURE_CATEGORY, whose lowercase form is the key. *)
Lemma build_items_last items key :
  synonym_to_feature (foldl (build_item E) empty_mappings items) !! key
  = last (filter (λ feature, Str.lower feature = key) items.*1).
Proof.
  induction items as [|item items IH] using rev_ind; [done|].
  rewrite build_items_snoc, fmap_app, filter_app. simpl.
  destruct (decide (Str.lower item.1 = key)) as [Heq|Hne].
  - rewrite Heq, lookup_insert_eq, filter_cons_True by done.
    by rewrite filter_nil, last_snoc.
  - rewrite lookup_insert_ne, filter_cons_False by done.
    by rewrite filter_nil, app_nil_r.
Qed.

Lemma last_filter_split {A} (P : A → Prop) `{!∀ x, Decision (P x)}
    (l : list A) (x : A) :
  last (filter P l) = Some x ↔
  ∃ before after, l = before ++ x :: after ∧ P x ∧ Forall (λ y, ¬ P y) after.
Proof.
  split.
  - induction l as [|y l IH] using rev_ind; [done|].
    rewrite filter_app. destruct (decide (P y)) as [Hy|Hy].
    + rewrite (filter_cons_True P y []), filter_nil, last_snoc by done.
      intros [= ->]. exists l, []. by rewrite Forall_nil.
    + rewrite (filter_cons_False P y []), filter_nil, app_nil_r by done.
      intros (before & after & -> & Hx & Hafter)%IH.
      exists before, (after ++ [y]). rewrite <- app_assoc. simpl.
      split; [done|]. split; [done|].
      apply Forall_app. split; [done|]. by apply Forall_singleton.
  - intros (before & after & -> & Hx & Hafter).
    rewrite filter_app, filter_cons_True by done.
    assert (filter P after = []) as ->.
    { induction Hafter as [|y after Hy _ IH]; [done|].
      by rewrite filter_cons_False. }
    by rewrite last_snoc.
Qed.

(** X1. Every main feature of FURNITURE_CATEGORY is in the vocabulary under
    its lowercase form. Looking that form up yields the last main feature,
    in the order of FURNITURE_CATEGORY, that has this lowercase form: among
    main features that differ by letter case only the later one wins. So
    the lookup yields the feature itself when no later main feature has
    its lowercase form, in particular when no two main features differ by
    case only. *)
Theorem lexicon_lookup (feature : string) :
  feature ∈ (FURNITURE_CATEGORY E).*1 →
  Str.lower feature ∈ all_synonyms (self E) ∧
  (∃ found before after,
     synonym_to_feature (self E) !! Str.lower feature = Some found ∧
     Str.lower found = Str.lower feature ∧
     found ∈ (FURNITURE_CATEGORY E).*1 ∧
     (FURNITURE_CATEGORY E).*1 = before ++ found :: after ∧
     ∀ later, later ∈ after → Str.lower later ≠ Str.lower feature) ∧
  (∀ before after,
     (FURNITURE_CATEGORY E).*1 = before ++ feature :: after →
     (∀ later, later ∈ after → Str.lower later ≠ Str.lower feature) →
     synonym_to_feature (self E) !! Str.lower feature = Some feature) ∧
  (NoDup (Str.lower <$> (FURNITURE_CATEGORY E).*1) →
   synonym_to_feature (self E) !! Str.lower feature = Some feature).
Proof.
  intros Hin.
  destruct (build_items_lookup _ _ Hin)
    as (Hsyn & [found [Hfound _]] & Hnodup & _).
  split; [done|]. split; [|split; [|done]].
  - unfold self, _buildFeatureMappings in Hfound.
    rewrite build_items_last in Hfound.
    apply last_filter_split in Hfound
      as (before & after & Hsplit & Hlow & Hafter).
    exists found, before, after.
    unfold self, _buildFeatureMappings at 1. rewrite build_items_last.
    split.
    { apply last_filter_split. by exists before, after. }
    split; [done|]. split.
    { rewrite Hsplit. apply elem_of_app. right. by left. }
    split; [done|]. intros later Hlater.
    by apply (proj1 (Forall_forall _ _) Hafter).
  - intros before after Hsplit Hafter.
    unfold self, _buildFeatureMappings. rewrite build_items_last.
    apply last_filter_split. exists before, after.
    split; [done|]. split; [done|]. by apply Forall_forall.
Qed.

(** X2. The features that have a category are the main features of
    FURNITURE_CATEGORY, and the category of each is its entry in
    CATEGORY_MAPPINGS, "Other" when it has none. *)
Theorem feature_categories (feature : string) :
  (feature ∈ (FURNITURE_CATEGORY E).*1 →
   feature_to_category (self E) !! feature
   = Some (default "Other" (CATEGORY_MAPPINGS E !! feature))) ∧
  (is_Some (feature_to_category (self E) !! feature) →
   feature ∈ (FURNITURE_CATEGORY E).*1).
Proof.
  split.
  - intros Hin. by destruct (build_items_lookup _ _ Hin) as (_ & _ & _ & ?).
  - unfold self, _buildFeatureMappings.
    induction (FURNITURE_CATEGORY E) as [|item items IH] using rev_ind.
    + simpl. rewrite lookup_empty. by intros [? ?].
    + rewrite build_items_snoc, fmap_app. simpl.
      destruct (decide (item.1 = feature)) as [->|Hne].
      * intros _. apply elem_of_app. right. by left.
      * rewrite lookup_insert_ne by done. intros Hsome%IH.
        apply elem_of_app. by left.
Qed.

End LexiconProperties.

(** ** The windowed scan, further *)

Section ScanProperties.
Import FeatureExtractor Windows.
Variable E : Env.

Lemma match_phrase_Some phrase feature :
  match_phrase E phrase = Return (Some feature) →
  synonym_to_feature (self E) !! phrase = Some feature ∨
  (synonym_to_feature (self E) !! phrase = None ∧
   6 < String.length phrase ∧
   ∃ candidate others,
     fuzzyMatch E phrase (all_synonyms (self E)) (fuzzy_threshold phrase)
     = Return (candidate :: others) ∧
     synonym_to_feature (self E) !! candidate = Some feature).
Proof.
  unfold match_phrase.
  destruct (synonym_to_feature (self E) !! phrase) as [found|] eqn:Hdirect.
  - intros [= <-]. by left.
  - destruct (Nat.ltb_spec 6 (String.length phrase)) as [Hlen|Hlen]; [|done].
    intros (result & Hfuzzy & Hfound)%bind_Return.
    destruct result as [|candidate others]; [done|].
    injection Hfound as Hfound. right. eauto 8.
Qed.

(** The accepted windows have one of the four sizes. *)
Lemma accepted_sizes words st :
  scan E words = Return st → Forall (λ w, w.2 ≤ 4) (accepted st).
Proof.
  unfold scan.
  apply (for_each_invariant (λ s, Forall (λ w, w.2 ≤ 4) (accepted s)));
    [|constructor].
  intros window_size s1 s2 Hsize Hs1. unfold scan_size.
  apply (for_each_invariant (λ s, Forall (λ w, w.2 ≤ 4) (accepted s)));
    [|done].
  intros start_idx t1 t2 _ Ht1
         [->|(feature & -> & _)]%ScanFacts.scan_window_cases; [done|].
  simpl. apply Forall_app. split; [done|]. constructor; [|constructor].
  simpl. repeat (apply elem_of_cons in Hsize as [->|Hsize]; [lia|]).
  by apply elem_of_nil in Hsize.
Qed.

(** X3. Every feature that [extractFeatures] returns comes from a window
    of one to four consecutive tokens of the lowercased text that passes
    the contextual check and whose phrase either is a key of the lexicon
    for this feature or, being longer than six characters and no key, has
    a first fuzzy match that is. *)
Theorem detected_feature_origin (text : string) (features : list string)
    (feature : string) :
  extractFeatures E text = Return features →
  feature ∈ features →
  ∃ start_idx window_size,
    let words := Str.split (Str.lower text) in
    let phrase :=
      Str.join " " (Str.slice start_idx (start_idx + window_size) words) in
    1 ≤ window_size ≤ 4 ∧
    start_idx + window_size ≤ length words ∧
    _hasContextualMatch phrase words start_idx = true ∧
    (synonym_to_feature (self E) !! phrase = Some feature ∨
     (synonym_to_feature (self E) !! phrase = None ∧
      6 < String.length phrase ∧
      ∃ candidate others,
        fuzzyMatch E phrase (all_synonyms (self E)) (fuzzy_threshold phrase)
        = Return (candidate :: others) ∧
        synonym_to_feature (self E) !! candidate = Some feature)).
Proof.
  intros (st & Hscan & ->)%extractFeatures_Return
         Hin%DisambiguationFacts.disambiguate_subset.
  pose proof (accepted_sizes _ _ Hscan) as Hsizes.
  apply ScanFacts.scan_invariant_final in Hscan as (_ & Hjust & _).
  apply list_elem_of_lookup in Hin as [i Hi].
  destruct (Forall2_lookup_r _ _ _ _ _ Hjust Hi)
    as ([start_idx window_size] & Hw & Hpos & Hfit & Hmatch & _ & Hctx).
  apply (Forall_lookup_1 _ _ _ _ Hsizes) in Hw. simpl in *.
  exists start_idx, window_size. split; [lia|]. split; [done|].
  split; [done|]. by apply match_phrase_Some.
Qed.

(** No two accepted windows start at the same token, and each starts
    inside the text. *)
Lemma accepted_starts words st :
  scan_invariant E words st →
  NoDup (accepted st).*1 ∧ ∀ start, start ∈ (accepted st).*1 → start < length words.
Proof.
  intros (_ & Hjust & _ & Hdisj). split.
  - apply NoDup_alt. intros i j start Hi Hj.
    apply list_lookup_fmap_Some in Hi as (w1 & -> & Hw1).
    apply list_lookup_fmap_Some in Hj as (w2 & Hstart & Hw2).
    destruct (decide (i = j)) as [|Hne]; [done|]. exfalso.
    destruct (Forall2_lookup_l _ _ _ _ _ Hjust Hw1) as (f1 & _ & Hpos1 & _).
    destruct (Forall2_lookup_l _ _ _ _ _ Hjust Hw2) as (f2 & _ & Hpos2 & _).
    apply (Hdisj i j w1 w2 Hne Hw1 Hw2 w1.1);
      unfold window_set, window_indices; rewrite elem_of_list_to_set;
      apply elem_of_seq; lia.
  - intros start (w & -> & Hw)%list_elem_of_fmap.
    apply list_elem_of_lookup in Hw as [i Hi].
    destruct (Forall2_lookup_l _ _ _ _ _ Hjust Hi) as (f & _ & Hpos & Hfit & _).
    lia.
Qed.

(** X4. [extractFeatures] returns at most as many features as the text has
    tokens. *)
Theorem feature_count_bound (text : string) (features : list string) :
  extractFeatures E text = Return features →
  length features ≤ length (Str.split (Str.lower text)).
Proof.
  intros (st & Hscan & ->)%extractFeatures_Return.
  apply ScanFacts.scan_invariant_final in Hscan as Hinv.
  destruct (accepted_starts _ _ Hinv) as [Hnodup Hrange].
  destruct Hinv as (_ & Hjust & _).
  transitivity (length (detected_features st)).
  { destruct (DisambiguationFacts.disambiguate_cases
                (Str.lower text) (detected_features st)) as [->|[name ->]];
      [done | apply length_filter]. }
  assert ((accepted st).*1 ⊆+ seq 0 (length (Str.split (Str.lower text))))
    as Hsub%submseteq_length.
  { apply NoDup_submseteq; [done|].
    intros start Hstart%Hrange. apply elem_of_seq. lia. }
  rewrite length_seq, length_fmap in Hsub.
  by rewrite <- (Forall2_length _ _ _ Hjust).
Qed.

Lemma in_scan_order_snoc windows w :
  in_scan_order windows →
  (∀ w1, w1 ∈ windows → window_before w1 w) →
  in_scan_order (windows ++ [w]).
Proof.
  intros Horder Hbefore i j w1 w2 Hlt H1 H2.
  apply lookup_app_Some in H2 as [H2|[Hj H2]].
  - apply lookup_lt_Some in H2 as Hj.
    rewrite lookup_app_l in H1 by lia. by apply (Horder i j).
  - apply list_lookup_singleton_Some in H2 as [Hj' <-].
    rewrite lookup_app_l in H1 by lia.
    apply Hbefore. by eapply list_elem_of_lookup_2.
Qed.

(** After the window that starts at [start_idx], the accepted windows
    are in scan order and all come before the next window. *)
Lemma scan_window_order words window_size start_idx st st' :
  in_scan_order (accepted st) →
  all_before (accepted st) window_size start_idx →
  scan_window E words window_size start_idx st = Return st' →
  in_scan_order (accepted st') ∧
  all_before (accepted st') window_size (S start_idx).
Proof.
  intros Horder Hbefore
         [->|(feature & -> & _)]%ScanFacts.scan_window_cases.
  - split; [done|]. intros w Hw. destruct (Hbefore w Hw) as [?|[? ?]].
    + by left.
    + right. simpl in *. lia.
  - simpl. split; [by apply in_scan_order_snoc|].
    intros w [Hw|Hw]%elem_of_app.
    + destruct (Hbefore w Hw) as [?|[? ?]]; [by left|].
      right. simpl in *. lia.
    + apply list_elem_of_singleton in Hw as ->. right. simpl. lia.
Qed.

Lemma scan_windows_order words window_size count start_idx st st' :
  in_scan_order (accepted st) →
  all_before (accepted st) window_size start_idx →
  for_each (scan_window E words window_size) (seq start_idx count) st
    = Return st' →
  in_scan_order (accepted st') ∧
  all_before (accepted st') window_size (start_idx + count).
Proof.
  revert start_idx st.
  induction count as [|count IH]; intros start_idx st Horder Hbefore; simpl.
  - intros [= <-]. by rewrite Nat.add_0_r.
  - intros (s1 & Hstep & Hrest)%bind_Return.
    destruct (scan_window_order _ _ _ _ _ Horder Hbefore Hstep)
      as [Horder1 Hbefore1].
    replace (start_idx + S count) with (S start_idx + count) by lia.
    by apply (IH (S start_idx) s1).
Qed.

(** After the pass of one size, every accepted window comes before all
    windows of a smaller size. *)
Lemma scan_size_order words window_size smaller st st' :
  smaller < window_size →
  in_scan_order (accepted st) →
  all_before (accepted st) window_size 0 →
  scan_size E words window_size st = Return st' →
  in_scan_order (accepted st') ∧ all_before (accepted st') smaller 0.
Proof.
  intros Hsmaller Horder Hbefore Hpass.
  destruct (scan_windows_order _ _ _ _ _ _ Horder Hbefore Hpass)
    as [Horder' Hbefore'].
  split; [done|]. intros w Hw. left.
  destruct (Hbefore' w Hw) as [?|[? ?]]; simpl in *; lia.
Qed.

(** X6. The accepted windows, which correspond one by one to the detected
    features, are in the order of the scan: by decreasing size and, among
    windows of one size, from left to right. *)
Theorem accepted_in_scan_order (words : list string) (st : scan_state) :
  scan E words = Return st →
  in_scan_order (accepted st) ∧
  Forall2 (justifies E words) (accepted st) (detected_features st).
Proof.
  intros Hscan. split;
    [|by apply ScanFacts.scan_invariant_final in Hscan as (_ & ? & _)].
  unfold scan in Hscan.
  apply for_each_cons_Return in Hscan as (s4 & H4 & Hscan).
  apply for_each_cons_Return in Hscan as (s3 & H3 & Hscan).
  apply for_each_cons_Return in Hscan as (s2 & H2 & Hscan).
  apply for_each_cons_Return in Hscan as (s1 & H1 & Hscan).
  injection Hscan as <-.
  apply (scan_size_order _ _ 3) in H4 as [Ho4 Hb4];
    [|lia|by intros i j w1 w2 _ ?|by intros w ?%elem_of_nil].
  apply (scan_size_order _ _ 2) in H3 as [Ho3 Hb3]; [|lia|done..].
  apply (scan_size_order _ _ 1) in H2 as [Ho2 Hb2]; [|lia|done..].
  by apply (scan_size_order _ _ 0) in H1 as [Ho1 _]; [|lia|done..].
Qed.

Lemma split_from_nonempty s cur token :
  token ∈ Str.split_from cur s → token ≠ "".
Proof.
  revert cur. induction s as [|c s IH]; intros cur; simpl.
  - case_decide; [by intros ?%elem_of_nil|].
    by intros ->%list_elem_of_singleton.
  - destruct (Str.is_space c); [|apply IH].
    intros [Hcur|Hrest]%elem_of_app; [|by eapply IH].
    case_decide; [by apply elem_of_nil in Hcur|].
    by apply list_elem_of_singleton in Hcur as ->.
Qed.

Lemma join_nonempty word words :
  word ≠ "" → Str.join " " (word :: words) ≠ "".
Proof.
  intros Hword. destruct words as [|next words]; [done|].
  rewrite StrFacts.join_cons. by destruct word.
Qed.

Lemma slice_all {A} (l : list A) : Str.slice 0 (0 + length l) l = l.
Proof.
  unfold Str.slice. simpl. rewrite Nat.sub_0_r. by apply take_ge.
Qed.

(** A window size that exceeds the number of tokens has no window. *)
Lemma scan_size_empty words window_size st :
  length words < window_size →
  scan_size E words window_size st = Return st.
Proof.
  intros Hlen. unfold scan_size, start_indices.
  by replace (length words + 1 - window_size) with 0 by lia.
Qed.

Lemma scan_window_overlap words window_size start_idx st idx :
  start_idx ≤ idx < start_idx + window_size →
  idx ∈ consumed_indices st →
  scan_window E words window_size start_idx st = Return st.
Proof.
  intros Hidx Hin. unfold scan_window.
  by rewrite (proj2 (ScanFacts.overlaps_consumed_true _ _ _)) by eauto.
Qed.

(** When every token is consumed, a pass changes nothing. *)
Lemma scan_size_all_consumed words window_size st :
  0 < window_size →
  (∀ idx, idx < length words → idx ∈ consumed_indices st) →
  scan_size E words window_size st = Return st.
Proof.
  intros Hsize Hall. unfold scan_size.
  assert (∀ start, start ∈ start_indices (length words) window_size →
                   start < length words) as Hstarts.
  { intros start Hstart%elem_of_seq. lia. }
  induction (start_indices (length words) window_size) as [|start starts IH];
    [done|].
  cbn [for_each].
  rewrite (scan_window_overlap words window_size start st start).
  - simpl. apply IH. intros s Hs. apply Hstarts. by right.
  - lia.
  - apply Hall, Hstarts. by left.
Qed.

(** The window that spans a text of which nothing is consumed yet. *)
Lemma scan_size_whole words window_size feature :
  window_size = length words →
  0 < window_size →
  synonym_to_feature (self E) !! Str.join " " words = Some feature →
  feature ≠ "" →
  _hasContextualMatch (Str.join " " words) words 0 = true →
  scan_size E words window_size scan_init
  = Return (accept scan_init feature 0 window_size).
Proof.
  intros -> Hpos Hkey Hne Hctx. unfold scan_size, start_indices.
  replace (length words + 1 - length words) with 1 by lia. simpl.
  unfold scan_window.
  rewrite (proj2 (ScanFacts.overlaps_consumed_false _ _ _))
    by apply disjoint_empty_r.
  rewrite slice_all, (ScanFacts.match_phrase_direct _ _ _ Hkey). simpl.
  destruct feature; [done|]. simpl. by rewrite Hctx.
Qed.

Lemma accept_all_consumed (words : list string) feature window_size idx :
  length words = window_size →
  idx < length words →
  idx ∈ consumed_indices (accept scan_init feature 0 window_size).
Proof.
  intros <- Hidx. simpl. apply elem_of_union. left.
  apply elem_of_list_to_set, elem_of_seq. lia.
Qed.

Lemma scan_whole_text words feature :
  1 ≤ length words ≤ 4 →
  synonym_to_feature (self E) !! Str.join " " words = Some feature →
  feature ≠ "" →
  _hasContextualMatch (Str.join " " words) words 0 = true →
  scan E words = Return (accept scan_init feature 0 (length words)).
Proof.
  intros Hlen Hkey Hne Hctx.
  unfold scan. cbn [for_each].
  assert (length words = 1 ∨ length words = 2 ∨ length words = 3
          ∨ length words = 4) as [Hn|[Hn|[Hn|Hn]]] by lia;
    rewrite Hn.
  - do 3 (rewrite scan_size_empty by lia; simpl).
    by rewrite (scan_size_whole words 1 feature) by (done || lia).
  - do 2 (rewrite scan_size_empty by lia; simpl).
    rewrite (scan_size_whole words 2 feature) by (done || lia). simpl.
    by rewrite scan_size_all_consumed
      by (lia || intros; by eapply accept_all_consumed).
  - rewrite scan_size_empty by lia. simpl.
    rewrite (scan_size_whole words 3 feature) by (done || lia). simpl.
    do 2 (rewrite scan_size_all_consumed
            by (lia || intros; by eapply accept_all_consumed); simpl).
    done.
  - rewrite (scan_size_whole words 4 feature) by (done || lia). simpl.
    do 3 (rewrite scan_size_all_consumed
            by (lia || intros; by eapply accept_all_consumed); simpl).
    done.
Qed.

Lemma disambiguate_singleton text_lower feature :
  disambiguate text_lower [feature] = [feature].
Proof.
  unfold disambiguate. simpl.
  destruct (Str.contains "l shape" feature) eqn:Hl; [|done].
  destruct (Str.contains "c shape" feature) eqn:Hc; [|done]. simpl.
  repeat case_match; try done; rewrite filter_cons;
    (case_decide as Hname; [done|]);
    subst feature; by vm_compute in Hl, Hc.
Qed.

(** X5. A text of one to four tokens that, joined by single spaces, is a
    key of the lexicon and passes the contextual check yields exactly the
    feature of that key: the window that spans the text is accepted first
    and no shorter window is examined; [fuzzyMatch] is not called. *)
Theorem whole_text_phrase (text : string) (feature : string) :
  let words := Str.split (Str.lower text) in
  1 ≤ length words ≤ 4 →
  synonym_to_feature (self E) !! Str.join " " words = Some feature →
  _hasContextualMatch (Str.join " " words) words 0 = true →
  extractFeatures E text = Return [feature].
Proof.
  intros words Hlen Hkey Hctx.
  assert (feature ≠ "") as Hne.
  { intros ->. apply MappingFacts.synonym_lower in Hkey. simpl in Hkey.
    destruct words as [|word rest] eqn:Hwords; [simpl in Hlen; lia|].
    symmetry in Hkey. revert Hkey. apply join_nonempty.
    apply (split_from_nonempty (Str.lower text) "").
    fold (Str.split (Str.lower text)). fold words. rewrite Hwords. by left. }
  apply extractFeatures_Return.
  exists (accept scan_init feature 0 (length words)). split.
  - by apply scan_whole_text.
  - simpl. by rewrite disambiguate_singleton.
Qed.

End ScanProperties.

(** ** The contextual pattern pass *)

Section PatternProperties.
Import FeatureExtractor Patterns.
Variable E : Env.

Lemma foldl_prefix {A X} (f : list A → X → list A) (l : list X) (a : list A) :
  (∀ a x, a `prefix_of` f a x) → a `prefix_of` foldl f a l.
Proof.
  intros Hf. revert a. induction l as [|x l IH]; intros a; simpl; [done|].
  etrans; [apply (Hf a x) | apply IH].
Qed.

Lemma foldl_invariant {A X} (P : A → Prop) (f : A → X → A) (l : list X) (a : A) :
  (∀ a x, x ∈ l → P a → P (f a x)) → P a → P (foldl f a l).
Proof.
  revert a. induction l as [|x l IH]; intros a Hf Ha; simpl; [done|].
  apply IH.
  - intros b y Hy. apply Hf. by right.
  - apply Hf; [by left | done].
Qed.

(** What one element of the loop establishes stays, when the loop only
    appends. *)
Lemma foldl_reaches {A X} (Q : list A → Prop) (f : list A → X → list A)
    (l : list X) (x0 : X) (a : list A) :
  (∀ a x, a `prefix_of` f a x) →
  (∀ a b, a `prefix_of` b → Q a → Q b) →
  x0 ∈ l → (∀ a, Q (f a x0)) → Q (foldl f a l).
Proof.
  intros Hf Hup Hin Hx0. revert a.
  induction l as [|x l IH]; intros a; [by apply elem_of_nil in Hin|].
  simpl. apply elem_of_cons in Hin as [<-|Hin].
  - apply (Hup (f a x0)); [by apply foldl_prefix | apply Hx0].
  - by apply IH.
Qed.

Lemma apply_patterns_prefix text detected :
  detected `prefix_of` apply_patterns E text detected.
Proof.
  apply foldl_prefix. intros a pf. cbv zeta. repeat case_match; try done.
  by apply prefix_app_r.
Qed.

Lemma categories_prefix text :
  apply_patterns E text [] `prefix_of` _extractContextualCategories E text.
Proof.
  apply foldl_prefix. intros a pc. apply foldl_prefix. intros b group.
  apply apply_patterns_prefix.
Qed.

(** One run of the direct patterns on a searched text keeps a property
    that holds for the features that this text yields. *)
Lemma apply_patterns_invariant (Q : string → Prop) searched detected :
  (∀ pattern feature,
     (pattern, feature) ∈ FEATURE_CONTEXTUAL_PATTERNS E →
     re_search E pattern searched = true →
     in_FURNITURE_CATEGORY E (Str.lower feature) = true →
     Q (Str.lower feature)) →
  NoDup detected ∧ Forall Q detected →
  NoDup (apply_patterns E searched detected)
  ∧ Forall Q (apply_patterns E searched detected).
Proof.
  intros HQ. unfold apply_patterns.
  apply (foldl_invariant (λ d, NoDup d ∧ Forall Q d)).
  intros d [pattern feature] Hin [Hnodup Hall]. simpl.
  destruct (re_search E pattern searched) eqn:Hsearch; [|done].
  destruct (in_FURNITURE_CATEGORY E (Str.lower feature)) eqn:Hkey; [|done].
  simpl. case_bool_decide as Hnew; [|done]. split.
  - apply NoDup_app. split; [done|]. split; [|apply NoDup_singleton].
    by intros f Hf ->%list_elem_of_singleton.
  - apply Forall_app. split; [done|]. constructor; [|constructor].
    by apply (HQ pattern).
Qed.

Lemma apply_patterns_complete searched detected pattern feature :
  (pattern, feature) ∈ FEATURE_CONTEXTUAL_PATTERNS E →
  re_search E pattern searched = true →
  in_FURNITURE_CATEGORY E (Str.lower feature) = true →
  Str.lower feature ∈ apply_patterns E searched detected.
Proof.
  intros Hin Hsearch Hkey. unfold apply_patterns.
  apply (foldl_reaches (λ d, Str.lower feature ∈ d) _ _ (pattern, feature));
    [| |done|].
  - intros a pf. cbv zeta. repeat case_match; try done.
    by apply prefix_app_r.
  - intros a b [rest ->] Ha. apply elem_of_app. by left.
  - intros a. simpl. rewrite Hsearch, Hkey. simpl.
    case_bool_decide as Hnew; [|done].
    apply elem_of_app. right. by left.
Qed.

(** X7. The pattern pass returns, without duplicates, exactly the
    lowercased features of the direct patterns that match the text, or
    the text with one matched typo corrected, and that are keys of
    FURNITURE_CATEGORY; the features found in the text itself come
    first. *)
Theorem contextual_categories (text : string) :
  NoDup (_extractContextualCategories E text) ∧
  apply_patterns E text [] `prefix_of` _extractContextualCategories E text ∧
  ∀ found,
    found ∈ _extractContextualCategories E text ↔
    ∃ pattern feature searched,
      (pattern, feature) ∈ FEATURE_CONTEXTUAL_PATTERNS E ∧
      searched ∈ searched_texts E text ∧
      re_search E pattern searched = true ∧
      found = Str.lower feature ∧
      found ∈ (FURNITURE_CATEGORY E).*1.
Proof.
  set (origin := λ found,
    ∃ pattern feature searched,
      (pattern, feature) ∈ FEATURE_CONTEXTUAL_PATTERNS E ∧
      searched ∈ searched_texts E text ∧
      re_search E pattern searched = true ∧
      found = Str.lower feature ∧
      found ∈ (FURNITURE_CATEGORY E).*1).
  assert (∀ searched detected,
            searched ∈ searched_texts E text →
            NoDup detected ∧ Forall origin detected →
            NoDup (apply_patterns E searched detected)
            ∧ Forall origin (apply_patterns E searched detected)) as Hrun.
  { intros searched detected Hsearched. apply apply_patterns_invariant.
    intros pattern feature Hin Hsearch Hkey.
    exists pattern, feature, searched. repeat split; try done.
    by apply bool_decide_eq_true in Hkey. }
  assert (NoDup (_extractContextualCategories E text)
          ∧ Forall origin (_extractContextualCategories E text))
    as [Hnodup Hsound].
  { unfold _extractContextualCategories.
    apply (foldl_invariant (λ d, NoDup d ∧ Forall origin d)).
    - intros d pc Hpc Hd.
      apply (foldl_invariant (λ d, NoDup d ∧ Forall origin d)); [|done].
      intros d' group Hgroup Hd'. apply Hrun; [|done].
      right. apply list_elem_of_bind. exists pc. split; [|done].
      apply list_elem_of_fmap. eauto.
    - apply Hrun; [by left|]. split; constructor. }
  split; [done|]. split; [apply categories_prefix|].
  intros found. split.
  - intros Hin. by apply (proj1 (Forall_forall _ _) Hsound).
  - intros (pattern & feature & searched & Hin & Hsearched & Hsearch
            & -> & Hkey).
    assert (in_FURNITURE_CATEGORY E (Str.lower feature) = true) as Hlexicon
      by (by apply bool_decide_eq_true_2).
    apply elem_of_cons in Hsearched as [->|Hsearched].
    + destruct (categories_prefix text) as [rest ->].
      apply elem_of_app. left. by apply (apply_patterns_complete _ _ pattern).
    + apply list_elem_of_bind in Hsearched as (pc & Hgroup & Hpc).
      apply list_elem_of_fmap in Hgroup as (group & -> & Hgroup).
      unfold _extractContextualCategories.
      apply (foldl_reaches (λ d, Str.lower feature ∈ d) _ _ pc); [| |done|].
      * intros a x. apply foldl_prefix. intros b g.
        apply apply_patterns_prefix.
      * intros a b [rest ->] Ha. apply elem_of_app. by left.
      * intros a.
        apply (foldl_reaches (λ d, Str.lower feature ∈ d) _ _ group);
          [| |done|].
        -- intros b g. apply apply_patterns_prefix.
        -- intros b c [rest ->] Hb. apply elem_of_app. by left.
        -- intros b. by apply (apply_patterns_complete _ _ pattern).
Qed.

End PatternProperties.

(** ** Suggestions *)

Section SuggestionProperties.
Import Config DatabaseManager QuerySuggestion.
Variable D : Database.
Variable FURNITURE_STYLES : list (string * list string).

Lemma lower_char_idemp c : Str.lower_char (Str.lower_char c) = Str.lower_char c.
Proof. by destruct c as [[] [] [] [] [] [] [] []]. Qed.

Lemma lower_idemp s : Str.lower (Str.lower s) = Str.lower s.
Proof.
  induction s as [|c s IH]; simpl; [done|]. by rewrite IH, lower_char_idemp.
Qed.

(** The style terms are the lowercased keys of FURNITURE_STYLES. *)
Lemma all_style_terms_spec term :
  term ∈ all_style_terms FURNITURE_STYLES ↔
  ∃ key, key ∈ FURNITURE_STYLES.*1 ∧ term = Str.lower key.
Proof.
  unfold all_style_terms.
  induction FURNITURE_STYLES as [|item items IH] using rev_ind.
  - simpl. split; [by intros ?%not_elem_of_empty|].
    by intros (key & ?%elem_of_nil & _).
  - rewrite foldl_app, fmap_app. simpl.
    rewrite elem_of_union, elem_of_singleton, IH. split.
    + intros [->|(key & Hkey & ->)].
      * exists item.1. split; [|done]. apply elem_of_app. right. by left.
      * exists key. split; [|done]. apply elem_of_app. by left.
    + intros (key & [Hkey|Hkey]%elem_of_app & ->).
      * right. eauto.
      * left. by apply list_elem_of_singleton in Hkey as ->.
Qed.

Lemma style_terms_count :
  length (elements (all_style_terms FURNITURE_STYLES))
  ≤ length FURNITURE_STYLES.
Proof.
  rewrite <- (length_fmap fst FURNITURE_STYLES).
  rewrite <- (length_fmap Str.lower FURNITURE_STYLES.*1).
  apply submseteq_length, NoDup_submseteq; [apply NoDup_elements|].
  intros term (key & Hkey & ->)%elem_of_elements%all_style_terms_spec.
  apply list_elem_of_fmap. eauto.
Qed.

(** X8. [extractStyles] returns at most ten styles; each is the title-cased
    form of a lowercased key of FURNITURE_STYLES that begins with the
    lowercased text; and when FURNITURE_STYLES has at most ten keys, every
    such key is returned. *)
Theorem extractStyles_prefix_matches (text : string) :
  length (extractStyles FURNITURE_STYLES text) ≤ 10 ∧
  (∀ style, style ∈ extractStyles FURNITURE_STYLES text →
     ∃ key, key ∈ FURNITURE_STYLES.*1 ∧
            style = Str.title (Str.lower key) ∧
            Str.startswith (Str.lower text) (Str.lower key) = true) ∧
  (length FURNITURE_STYLES ≤ 10 →
   ∀ key, key ∈ FURNITURE_STYLES.*1 →
     Str.startswith (Str.lower text) (Str.lower key) = true →
     Str.title (Str.lower key) ∈ extractStyles FURNITURE_STYLES text).
Proof.
  unfold extractStyles, _extractFurnitureStyles. split; [|split].
  - rewrite length_take. lia.
  - intros style Hin%subseteq_take.
    apply list_elem_of_fmap in Hin as (term & -> & Hterm).
    apply list_elem_of_filter in Hterm as [Hprefix Hterm].
    apply elem_of_elements, all_style_terms_spec in Hterm as (key & Hkey & ->).
    rewrite lower_idemp in Hprefix. eauto.
  - intros Hcount key Hkey Hprefix. rewrite take_ge.
    + apply list_elem_of_fmap. exists (Str.lower key). split; [done|].
      apply list_elem_of_filter. split; [by rewrite lower_idemp|].
      apply elem_of_elements, all_style_terms_spec. eauto.
    + rewrite length_fmap.
      etrans; [apply length_filter|]. etrans; [apply style_terms_count|done].
Qed.

(** X9. When the database fails on every request, the suggestions still
    arrive: the product and brand lists are empty, the styles are those of
    [extractStyles]. *)
Theorem suggestions_without_database (query : string) :
  (∀ sql parameter, ∃ e, run_query D sql parameter = Raise e) →
  suggestQueryResults D FURNITURE_STYLES query
  = Mapping [("product_name", Entries []);
             ("brand_name", Entries []);
             ("styles", Names (extractStyles FURNITURE_STYLES query))].
Proof.
  intros Hfail.
  unfold suggestQueryResults, suggestsQuery, extractProductBrandName,
    fetchProductNames, fetchBrandNames, _fetchData. simpl.
  destruct (Hfail (select_statement D (PRODUCT_TABLE D)) (query +:+ "%"))
    as [e1 ->].
  destruct (Hfail (select_statement D (BRAND_TABLE D)) (query +:+ "%"))
    as [e2 ->].
  done.
Qed.

Lemma omap_length {A B} (f : A → option B) (l : list A) :
  length (omap f l) ≤ length l.
Proof.
  induction l as [|x l IH]; [done|]. csimpl. destruct (f x); simpl; lia.
Qed.

(** X10. When the request succeeds, [_fetchData] returns one entry for
    each row that has an identifier, and none for the others. *)
Theorem fetched_entries (table text : string)
    (rows : list (option Z * string)) :
  run_query D (select_statement D table) (text +:+ "%") = Return rows →
  length (_fetchData D table text) ≤ length rows ∧
  ∀ entry, entry ∈ _fetchData D table text ↔
           (Some (id entry), name entry) ∈ rows.
Proof.
  intros Hrows. unfold _fetchData. simpl. rewrite Hrows. split.
  - apply omap_length.
  - intros [i n]. rewrite list_elem_of_omap. simpl. split.
    + intros ([[i'|] n'] & Hrow & Hentry); [|done].
      by injection Hentry as -> ->.
    + intros Hrow. by exists (Some i, n).
Qed.

End SuggestionProperties.

(** ** The orchestrator and the views *)

Section CallerProperties.
Import Config FurnitureParser DatabaseManager QuerySuggestion Main.
Variable E : Env.
Variable X : Extractors.
Variable D : Database.
Variable FURNITURE_STYLES : list (string * list string).
Variable str : exn → string.
Variable duration : Q.
Variable two_decimals : Q → string.

(** X11. [structureQuery] raises on every query. When the four stages
    return, it raises ValueError at the unpacking of the feature list if
    the list has not exactly two elements, and TypeError at the call of
    [ParserResult], which lacks the field [styles], if it has. *)
Theorem structureQuery_always_raises (query : string) :
  (∃ e, structureQuery E X query = Raise e) ∧
  (∀ types confidences corrected features summary price,
     classifyProductType X query = Return (types, confidences, corrected) →
     FeatureExtractor.extractFeatures E corrected = Return features →
     extractClassification X query = Return summary →
     extractPriceRange X query = Return price →
     structureQuery E X query
     = Raise (if decide (length features = 2) then TypeError
              else ValueError)).
Proof.
  unfold structureQuery, structureQuery_kwargs. split.
  - destruct (classifyProductType X query) as [[[pt pc] cq]|?];
      [|by eauto]. simpl.
    destruct (FeatureExtractor.extractFeatures E cq)
      as [[|f1 [|f2 [|? ?]]]|?]; simpl; try by eauto.
    destruct (extractClassification X query) as [summary|?];
      [|by eauto]. simpl.
    destruct (extractPriceRange X query) as [price|?]; [|by eauto]. simpl.
    exists TypeError. by vm_compute.
  - intros types confidences corrected features summary price
           -> Hfeatures Hsummary Hprice. simpl. rewrite Hfeatures.
    destruct features as [|f1 [|f2 [|? ?]]]; simpl; try done.
    rewrite Hsummary. simpl. rewrite Hprice. simpl. by vm_compute.
Qed.

(** X12. The view [analyzeQuery] answers 400 "Query is required" when the
    query is absent or empty, and for every other query the status 500
    with the text of the exception that [structureQuery] raises. *)
Theorem analyzeQuery_replies :
  analyzeQuery E X str duration two_decimals None
  = {| content := Failure "Query is required"; status := 400 |} ∧
  analyzeQuery E X str duration two_decimals (Some "")
  = {| content := Failure "Query is required"; status := 400 |} ∧
  ∀ query, query ≠ "" →
    ∃ e, structureQuery E X query = Raise e ∧
         analyzeQuery E X str duration two_decimals (Some query)
         = {| content := Failure ("Server error: " +:+ str e);
              status := 500 |}.
Proof.
  split; [done|]. split; [done|].
  intros query Hquery.
  destruct (structureQuery_always_raises query) as [[e He] _].
  exists e. split; [done|].
  unfold analyzeQuery, analyzeQueryText. rewrite He.
  by destruct query.
Qed.



End CallerProperties.

(** ** The further properties on concrete tables *)

Section FurtherExamples.
Import FeatureExtractor Windows Patterns Config FurnitureParser.
Import DatabaseManager QuerySuggestion Main.

Lemma lexicon_lookup_witness :
  synonym_to_feature (self Demo.env_mixed_case) !! "leather"
  = Some "Leather" ∧
  synonym_to_feature (self Demo.env) !! Str.lower "leather" = Some "leather".
Proof.
  split.
  - destruct (lexicon_lookup Demo.env_mixed_case "Leather")
      as (_ & _ & Hlast & _).
    + by vm_compute; repeat constructor.
    + apply (Hlast ["leather"] []); [reflexivity|].
      by intros later Hlater%elem_of_nil.
  - destruct (lexicon_lookup Demo.env "leather") as (_ & _ & _ & Hunique).
    + by vm_compute; repeat constructor.
    + apply Hunique. apply (bool_decide_unpack _). by vm_compute.
Defined.

Lemma feature_categories_witness :
  feature_to_category (self Demo.env) !! "tufted" = Some "Other" ∧
  feature_to_category (self Demo.env) !! "leather" = Some "Material".
Proof.
  split.
  - destruct (feature_categories Demo.env "tufted") as [Hcategory _].
    apply Hcategory. by vm_compute; repeat constructor.
  - destruct (feature_categories Demo.env "leather") as [Hcategory _].
    apply Hcategory. by vm_compute; repeat constructor.
Defined.

Lemma detected_feature_origin_witness :
  ∃ start_idx window_size,
    let words := Str.split (Str.lower "tuffted sofa") in
    let phrase :=
      Str.join " " (Str.slice start_idx (start_idx + window_size) words) in
    1 ≤ window_size ≤ 4 ∧
    start_idx + window_size ≤ length words ∧
    _hasContextualMatch phrase words start_idx = true ∧
    (synonym_to_feature (self Demo.env) !! phrase = Some "tufted" ∨
     (synonym_to_feature (self Demo.env) !! phrase = None ∧
      6 < String.length phrase ∧
      ∃ candidate others,
        fuzzyMatch Demo.env phrase (all_synonyms (self Demo.env))
          (fuzzy_threshold phrase)
        = Return (candidate :: others) ∧
        synonym_to_feature (self Demo.env) !! candidate = Some "tufted")).
Proof.
  apply (detected_feature_origin Demo.env "tuffted sofa" ["tufted"]).
  - by vm_compute.
  - by left.
Defined.

Lemma feature_count_bound_witness :
  extractFeatures Demo.env "l shape leather sofa"
  = Return ["l shape"; "leather"] ∧
  length ["l shape"; "leather"]
  ≤ length (Str.split (Str.lower "l shape leather sofa")).
Proof.
  assert (extractFeatures Demo.env "l shape leather sofa"
          = Return ["l shape"; "leather"]) as Hret by (by vm_compute).
  split; [exact Hret|].
  exact (feature_count_bound Demo.env _ _ Hret).
Defined.

Lemma whole_text_phrase_witness :
  extractFeatures Demo.env_failing_fuzzy "Metal  Legs" = Return ["metal legs"].
Proof.
  apply whole_text_phrase.
  - simpl. lia.
  - by vm_compute.
  - by vm_compute.
Defined.

Lemma accepted_in_scan_order_witness :
  let st := accept (accept scan_init "l shape" 0 2) "leather" 2 1 in
  in_scan_order (accepted st).
Proof.
  intros st.
  destruct (accepted_in_scan_order Demo.env
              ["l"; "shape"; "leather"; "sofa"] st) as [Horder _].
  - by vm_compute.
  - exact Horder.
Defined.

Lemma contextual_categories_witness :
  "tufted" ∈ _extractContextualCategories Demo.env "buton sofa".
Proof.
  destruct (contextual_categories Demo.env "buton sofa") as (_ & _ & Hiff).
  apply Hiff. exists "button", "tufted", "button sofa".
  split; [by left|]. split; [by vm_compute; right; left|].
  split; [by vm_compute|]. split; [by vm_compute|].
  by vm_compute; repeat constructor.
Defined.

Lemma extractStyles_prefix_matches_witness :
  Str.title (Str.lower "Modern") ∈ extractStyles Demo.furniture_styles "MOD".
Proof.
  destruct (extractStyles_prefix_matches Demo.furniture_styles "MOD")
    as (_ & _ & Hall).
  apply Hall.
  - simpl. lia.
  - by left.
  - by vm_compute.
Defined.

Lemma suggestions_without_database_witness :
  suggestQueryResults DemoViews.database_down Demo.furniture_styles "rus"
  = Mapping [("product_name", Entries []);
             ("brand_name", Entries []);
             ("styles", Names (extractStyles Demo.furniture_styles "rus"))].
Proof.
  apply suggestions_without_database.
  intros sql parameter. by exists (Exception "OperationalError").
Defined.

Lemma fetched_entries_witness :
  length (_fetchData Demo.database "Product" "mod") ≤ 2 ∧
  ∀ entry, entry ∈ _fetchData Demo.database "Product" "mod" ↔
           (Some (id entry), name entry)
           ∈ [(Some 7%Z, "Modena sofa"); (None, "Modular desk")].
Proof.
  apply (fetched_entries Demo.database "Product" "mod"
           [(Some 7%Z, "Modena sofa"); (None, "Modular desk")]).
  by vm_compute.
Defined.

Lemma structureQuery_always_raises_witness :
  structureQuery Demo.env Demo.extractors "l shape leather sofa"
  = Raise TypeError.
Proof.
  destruct (structureQuery_always_raises Demo.env Demo.extractors
              "l shape leather sofa") as [_ Hstages].
  apply (Hstages ["Sofa"] [(9 # 10)%Q] "l shape leather sofa"
                 ["l shape"; "leather"] [] None); by vm_compute.
Defined.

Lemma analyzeQuery_replies_witness :
  ∃ e,
    structureQuery Demo.env Demo.extractors "sofa" = Raise e ∧
    analyzeQuery Demo.env Demo.extractors DemoViews.describe
      DemoViews.elapsed DemoViews.formatted (Some "sofa")
    = {| content := Failure ("Server error: " +:+ DemoViews.describe e);
         status := 500 |}.
Proof.
  destruct (analyzeQuery_replies Demo.env Demo.extractors DemoViews.describe
              DemoViews.elapsed DemoViews.formatted) as (_ & _ & Hquery).
  by apply Hquery.
Defined.


End FurtherExamples.
